(** * TUDataset: the download / process / load cache of
      torch_geometric/datasets/tu_dataset.py

    The class is embedded method by method, each method a function on the
    world it acts on, returning [None] where Python raises.

    - Paths are Python strings and stay strings, joined as [posixpath.join]
      joins them; the file system is a finite map from path to file.
    - A tensor is its rows with its number of columns; the entries are of
      any type [A], nothing here computes with them.
    - pre_filter and pre_transform are functions of the record they are
      given.
    - What the class calls or inherits from the rest of the package
      ([download_url], [extract_zip], [read_tu_data], [num_node_features],
      [num_edge_features]) is a parameter; the constructor and the path
      lists of the base class follow the specification. *)

From Stdlib Require Import ZArith Lia Ascii.
From stdpp Require Import base option list strings gmap fin_maps.

Local Open Scope Z_scope.

(** ** os.path (posixpath) *)

Module osp.

Definition sep : string := "/".

(** [b.startswith(sep)] *)
Definition startswith_sep (b : string) : bool :=
  match b with
  | String c _ => bool_decide (c = "/"%char)
  | EmptyString => false
  end.

(** [path.endswith(sep)] *)
Fixpoint endswith_sep (path : string) : bool :=
  match path with
  | EmptyString => false
  | String c EmptyString => bool_decide (c = "/"%char)
  | String _ rest => endswith_sep rest
  end.

(** One turn of the loop of [posixpath.join]:
<<
    if b.startswith(sep):            path = b
    elif not path or path.endswith(sep):  path += b
    else:                             path += sep + b
>> *)
Definition join_step (path b : string) : string :=
  if startswith_sep b then b
  else if bool_decide (path = "") || endswith_sep path then path +:+ b
  else path +:+ sep +:+ b.

(** [osp.join(a, *p)] *)
Definition join (a : string) (p : list string) : string :=
  foldl join_step a p.

End osp.

(** ** Tensors and graph records *)

(** A two-dimensional tensor: its rows and [size(1)], the number of columns
    (kept apart from the rows, a tensor without rows still has columns). *)
Record Tensor (A : Type) : Type := mkTensor {
  size1 : nat;
  rows : list (list A)
}.
Arguments mkTensor {A} _ _.
Arguments size1 {A} _.
Arguments rows {A} _.

(** Every row is as long as the shape says. *)
Definition tensor_wf {A} (t : Tensor A) : Prop :=
  Forall (λ r, length r = size1 t) (rows t).

(** Where the slice [a:] of a dimension of [w] entries starts (Python's
    clamping of slice bounds: a negative start counts from the end). *)
Definition slice_start (a : Z) (w : nat) : nat :=
  Z.to_nat (if a <? 0 then Z.max (a + Z.of_nat w) 0 else Z.min a (Z.of_nat w)).

(** [t[:, a:].contiguous()] *)
Definition slice_columns {A} (a : Z) (t : Tensor A) : Tensor A :=
  let s := slice_start a (size1 t) in
  mkTensor (size1 t - s)%nat (drop s <$> rows t).

(** [data.adj]: a sparse adjacency, the coordinates of its entries and the
    optional value channels ([storage.value()], one row per entry). *)
Record SparseTensor (A : Type) : Type := mkSparse {
  index : list (Z * Z);
  value : option (Tensor A)
}.
Arguments mkSparse {A} _ _.
Arguments index {A} _.
Arguments value {A} _.

(** [adj.set_value_(value, layout='coo')] *)
Definition set_value_ {A} (adj : SparseTensor A) (v : Tensor A) : SparseTensor A :=
  mkSparse (index adj) (Some v).

(** [torch_geometric.data.Data] as the loader uses it: node feature matrix,
    adjacency, graph-level target. *)
Record Data (A : Type) : Type := mkData {
  x : option (Tensor A);
  adj : SparseTensor A;
  y : option (list A)
}.
Arguments mkData {A} _ _ _.
Arguments x {A} _.
Arguments adj {A} _.
Arguments y {A} _.

(** The number of columns of a record's node feature matrix and of its
    edge value channels ([size(1)]; no matrix, no columns). *)
Definition num_columns {A} (t : option (Tensor A)) : Z :=
  match t with
  | Some t => Z.of_nat (size1 t)
  | None => 0
  end.
Definition node_columns {A} (data : Data A) : Z := num_columns (x data).
Definition edge_columns {A} (data : Data A) : Z := num_columns (value (adj data)).

(** ** The dataset object *)

(** What [__init__] has put on [self] when the base class takes over
    (lines 62-65): the arguments that locate and build the cache. *)
Record Self (A : Type) : Type := mkSelf {
  root : string;
  name : string;
  transform : option (Data A → Data A);
  pre_transform : option (Data A → Data A);
  pre_filter : option (Data A → bool);
  cleaned : bool
}.
Arguments mkSelf {A} _ _ _ _ _ _.
Arguments root {A} _.
Arguments name {A} _.
Arguments transform {A} _.
Arguments pre_transform {A} _.
Arguments pre_filter {A} _.
Arguments cleaned {A} _.

(** The constructed object: [self] with the three loaded attributes. *)
Record TUDataset (A : Type) : Type := mkTUDataset {
  self : Self A;
  data_list : list (Data A);
  num_node_attributes : Z;
  num_edge_attributes : Z
}.
Arguments mkTUDataset {A} _ _ _ _.
Arguments self {A} _.
Arguments data_list {A} _.
Arguments num_node_attributes {A} _.
Arguments num_edge_attributes {A} _.

Section Paths.
Context {A : Type}.
Implicit Types s : Self A.

(** Class attributes, lines 54-57. *)
Definition url : string :=
  "https://ls11-www.cs.tu-dortmund.de/people/morris/" +:+ "graphkerneldatasets".
Definition cleaned_url : string :=
  "https://raw.githubusercontent.com/nd7141/" +:+ "graph_datasets/master/datasets".

(** ['_cleaned' if self.cleaned else ''] *)
Definition cleaned_suffix s : string :=
  if cleaned s then "_cleaned" else "".

(** Lines 80-83. *)
Definition raw_dir s : string :=
  osp.join (root s) [name s; "raw" +:+ cleaned_suffix s].

(** Lines 85-88. *)
Definition processed_dir s : string :=
  osp.join (root s) [name s; "processed" +:+ cleaned_suffix s].

(** Lines 98-101: ['{}_{}.txt'.format(self.name, name)] for the two names. *)
Definition raw_file_names s : list string :=
  (λ n, name s +:+ "_" +:+ n +:+ ".txt") <$> ["A"; "graph_indicator"].

(** Lines 103-105. *)
Definition processed_file_names s : list string :=
  ["data.pt"; "num_node_attributes.pt"; "num_edge_attributes.pt"].

End Paths.

(** ** Files and the world outside the process *)

(** What a file holds: text as distributed upstream, a zip archive (member
    path and body of each member), or an object written by [torch.save]
    (here a record list or an integer; [torch.load] gives back what was
    saved). *)
Inductive file (A : Type) : Type :=
  | Text (body : string)
  | Zip (members : list (string * string))
  | SavedList (l : list (Data A))
  | SavedInt (n : Z).
Arguments Text {A} _.
Arguments Zip {A} _.
Arguments SavedList {A} _.
Arguments SavedInt {A} _.

(** The file system maps a path to the file stored there; a directory is the
    set of files beneath it and has no entry of its own.  Paths are compared
    as strings.  [requests] logs the URLs fetched so far. *)
Record world (A : Type) : Type := mkWorld {
  files : gmap string (file A);
  requests : list string
}.
Arguments mkWorld {A} _ _.
Arguments files {A} _.
Arguments requests {A} _.

Module fs.

(** [relative d p]: what follows [d] in [p] when [p] is [d] itself or lies
    beneath the directory [d] (the rest is empty or starts with the
    separator).  Paths are taken as they are written: a component [.] or
    [..] is not resolved, so [under d p] tells that [p] lies in [d] on disk,
    while two paths written differently may still name one place there
    (as [a/./b] and [a/b] do). *)
Fixpoint relative (d p : string) : option string :=
  match d, p with
  | EmptyString, EmptyString => Some p
  | EmptyString, String _ _ => if osp.startswith_sep p then Some p else None
  | String a d', String b p' => if bool_decide (a = b) then relative d' p' else None
  | String _ _, EmptyString => None
  end.

Definition under (d p : string) : bool :=
  bool_decide (is_Some (relative d p)).

(** A rest of a path: nothing, or a separator and more. *)
Definition is_rest (r : string) : Prop := r = "" ∨ osp.startswith_sep r = true.

Section Ops.
Context {A : Type}.
Implicit Types m : gmap string (file A).

(** [osp.exists] on every path of a list. *)
Definition files_exist (paths : list string) m : bool :=
  forallb (λ p, bool_decide (is_Some (m !! p))) paths.

(** The files at or beneath [d]. *)
Definition subtree (d : string) m : gmap string (file A) :=
  filter (λ kv, under d kv.1 = true) m.

(** [os.unlink(path)]: raises when there is no such file. *)
Definition unlink (path : string) m : option (gmap string (file A)) :=
  match m !! path with
  | Some _ => Some (delete path m)
  | None => None
  end.

(** [shutil.rmtree(d)]: raises when [d] is a file; everything beneath
    [d] goes.  A directory has no entry of its own here, so one that holds
    nothing cannot be told from one that is not there: Python removes the
    former and raises for the latter, and this call returns for both.
    Where a statement needs the directory to be there, it asks for a file
    beneath it. *)
Definition rmtree (d : string) m : option (gmap string (file A)) :=
  match m !! d with
  | Some _ => None
  | None => Some (filter (λ kv, under d kv.1 = false) m)
  end.

(** Where [os.rename(src, dst)] takes a path: the tree at [src] goes to
    [dst]. *)
Definition move_path (src dst p : string) : string :=
  match relative src p with
  | Some rest => dst +:+ rest
  | None =>
      match relative dst p with
      | Some rest => src +:+ rest
      | None => p
      end
  end.

(** [os.rename(src, dst)] for a destination other than [src] that does
    not exist, the way [download] calls it: raises when nothing is at
    [src], when [dst] lies inside [src] or holds something already.  A
    directory at [src] that holds nothing has no entry either: Python
    moves it, and this call raises, as it does for a path that is not
    there. *)
Definition rename (src dst : string) m : option (gmap string (file A)) :=
  if bool_decide (subtree src m = ∅) then None
  else if under src dst then None
  else if bool_decide (subtree dst m = ∅) then Some (kmap (move_path src dst) m)
  else None.

End Ops.

End fs.

(** ** What the module takes from the rest of the package *)

(** [download_url] and [extract_zip] (torch_geometric.data) and
    [read_tu_data] (torch_geometric.io) are called by the class and defined
    elsewhere: they are parameters of the methods below.  The first two act
    on the world; the reader is given the folder, the file prefix and the
    files, and returns the record list with the two attribute counts (or
    raises). *)
Class Imports (A : Type) : Type := mkImports {
  download_url : string → string → world A → option (string * world A);
  extract_zip : string → string → world A → option (world A);
  read_tu_data : string → string → gmap string (file A) → option (list (Data A) * Z * Z)
}.
Arguments mkImports {A} _ _ _.

(** [num_node_features] and [num_edge_features] are properties the class
    inherits from its base class; they are read off the object (and may
    raise). *)
Class Inherited (A : Type) : Type := mkInherited {
  num_node_features : TUDataset A → option Z;
  num_edge_features : TUDataset A → option Z
}.
Arguments mkInherited {A} _ _.

(** [torch.save(obj, path)] *)
Definition torch_save {A} (obj : file A) (path : string) (w : world A) : world A :=
  mkWorld (<[path := obj]> (files w)) (requests w).

(** [torch.load(path)] *)
Definition torch_load {A} (path : string) (w : world A) : option (file A) :=
  files w !! path.

(** Lifting the three calls of the standard library to the world. *)
Definition on_files {A} (op : gmap string (file A) → option (gmap string (file A)))
    (w : world A) : option (world A) :=
  m ← op (files w); Some (mkWorld m (requests w)).

Section Methods.
Context {A : Type} {ext : Imports A}.
Implicit Types (s : Self A) (w : world A).

(** Modelled from the spec: [raw_paths] and [processed_paths] belong to
    the base class, which is not among the sources.  The spec lays the
    files out as [<root>/<name>/raw[_cleaned]/<file>] and
    [<root>/<name>/processed[_cleaned]/<file>]: each file name joined to
    its directory. *)
Definition raw_paths s : list string :=
  (λ f, osp.join (raw_dir s) [f]) <$> raw_file_names s.
Definition processed_paths s : list string :=
  (λ f, osp.join (processed_dir s) [f]) <$> processed_file_names s.

(** Lines 107-114. *)
Definition download s w : option (world A) :=
  let url := if cleaned s then cleaned_url else url in
  let folder := osp.join (root s) [name s] in
  '(path, w) ← download_url (url +:+ "/" +:+ name s +:+ ".zip") folder w;
  w ← extract_zip path folder w;
  w ← on_files (fs.unlink path) w;
  w ← on_files (fs.rmtree (raw_dir s)) w;
  on_files (fs.rename (osp.join folder [name s]) (raw_dir s)) w.

(** Lines 116-128.  The two callbacks are functions of the record they are
    given.  Returns the two counts it leaves on [self] and the world. *)
Definition process s w : option (Z * Z * world A) :=
  '(data_list, nna, nea) ← read_tu_data (raw_dir s) (name s) (files w);
  let data_list :=
    match pre_filter s with
    | Some f => List.filter f data_list
    | None => data_list
    end in
  let data_list :=
    match pre_transform s with
    | Some t => t <$> data_list
    | None => data_list
    end in
  p0 ← processed_paths s !! 0%nat;
  p1 ← processed_paths s !! 1%nat;
  p2 ← processed_paths s !! 2%nat;
  let w := torch_save (SavedList data_list) p0 w in
  let w := torch_save (SavedInt nna) p1 w in
  let w := torch_save (SavedInt nea) p2 w in
  Some (nna, nea, w).

(** Modelled from the spec: the constructor of the base class
    ([InMemoryDataset.__init__], line 64) is not among the sources.  The
    spec gives its control flow: check the processed cache; if a processed
    artifact is missing, check the raw cache; if a required raw file is
    missing, download; then parse, filter, transform and persist. *)
Definition super_init s w : option (world A) :=
  if fs.files_exist (processed_paths s) (files w) then Some w
  else
    w ← (if fs.files_exist (raw_paths s) (files w) then Some w else download s w);
    '(_, _, w) ← process s w;
    Some w.

(** Line 72 for one record; subscripting [None] raises. *)
Definition strip_x (a : Z) (data : Data A) : option (Data A) :=
  t ← x data;
  Some (mkData (Some (slice_columns a t)) (adj data) (y data)).

(** Lines 76-78 for one record. *)
Definition strip_value (a : Z) (data : Data A) : option (Data A) :=
  v ← value (adj data);
  Some (mkData (x data) (set_value_ (adj data) (slice_columns a v)) (y data)).

Definition load_list (path : string) w : option (list (Data A)) :=
  match torch_load path w with
  | Some (SavedList l) => Some l
  | _ => None
  end.

Definition load_int (path : string) w : option Z :=
  match torch_load path w with
  | Some (SavedInt n) => Some n
  | _ => None
  end.

(** Lines 70-72 and 74-78: the two passes over the loaded list.  The
    records of the list are taken to be distinct objects with adjacencies
    of their own, as the reader builds them and [torch.load] restores
    them; a loop assigns to each of them in turn and raises at the first
    it cannot subscript.  In Python an object that the list holds twice is
    assigned to twice, and a matrix of it sliced twice over; whether a pass
    raises, and what a pass that does not slice leaves, are the same
    there. *)
Definition node_pass (nna : Z) (use_node_attributes : bool)
    (data_list : list (Data A)) : option (list (Data A)) :=
  if (nna >? 0) && negb use_node_attributes
  then mapM (strip_x nna) data_list else Some data_list.
Definition edge_pass (nea : Z) (use_edge_attributes : bool)
    (data_list : list (Data A)) : option (list (Data A)) :=
  if (nea >? 0) && negb use_edge_attributes
  then mapM (strip_value nea) data_list else Some data_list.

(** Lines 66-78: what the constructor does once the base class has made
    sure the processed files are there. *)
Definition load s (use_node_attributes use_edge_attributes : bool) w
    : option (TUDataset A) :=
  p0 ← processed_paths s !! 0%nat;
  data_list ← load_list p0 w;
  p1 ← processed_paths s !! 1%nat;
  nna ← load_int p1 w;
  p2 ← processed_paths s !! 2%nat;
  nea ← load_int p2 w;
  data_list ← node_pass nna use_node_attributes data_list;
  data_list ← edge_pass nea use_edge_attributes data_list;
  Some (mkTUDataset s data_list nna nea).

(** Lines 59-78. *)
Definition __init__ (root name : string)
    (transform pre_transform : option (Data A → Data A))
    (pre_filter : option (Data A → bool))
    (use_node_attributes use_edge_attributes cleaned : bool) w
    : option (TUDataset A * world A) :=
  let s := mkSelf root name transform pre_transform pre_filter cleaned in
  w ← super_init s w;
  ds ← load s use_node_attributes use_edge_attributes w;
  Some (ds, w).

End Methods.

Section Labels.
Context {A : Type} {base : Inherited A}.

(** Lines 90-92. *)
Definition num_node_labels (ds : TUDataset A) : option Z :=
  nnf ← num_node_features ds; Some (nnf - num_node_attributes ds).

(** Lines 94-96. *)
Definition num_edge_labels (ds : TUDataset A) : option Z :=
  nef ← num_edge_features ds; Some (nef - num_edge_attributes ds).

End Labels.

(** ** The absent parts, modelled *)

Module model.
Section Model.
Context {A : Type}.

(** Modelled from the spec: [num_node_features] and [num_edge_features]
    are properties of the base class, which is not among the sources.
    In the spec's data model the columns of a record's node feature
    matrix are its feature channels, and likewise the value channels of
    its adjacency; the count is read off the first record the dataset
    holds (none to read when the list is empty). *)
Definition num_node_features (ds : TUDataset A) : option Z :=
  data ← head (data_list ds); Some (node_columns data).
Definition num_edge_features (ds : TUDataset A) : option Z :=
  data ← head (data_list ds); Some (edge_columns data).

(** [url.rpartition('/')[2]]: what follows the last separator. *)
Fixpoint basename_go (acc s : string) : string :=
  match s with
  | EmptyString => String.rev acc
  | String c rest =>
      if bool_decide (c = "/"%char) then basename_go "" rest
      else basename_go (String c acc) rest
  end.
Definition basename (s : string) : string := basename_go "" s.

(** Modelled from the spec: [download_url] is defined outside the
    sources.  The spec has it fetch the archive at the URL (an HTTP
    GET); the archive is stored in the folder under the last component
    of the URL and its path returned.  [net] is what the remote host
    serves. *)
Definition download_url (net : string → option (file A))
    (url folder : string) (w : world A) : option (string * world A) :=
  body ← net url;
  let path := osp.join folder [basename url] in
  Some (path, mkWorld (<[path := body]> (files w)) (requests w ++ [url])).

(** Modelled from the spec: [extract_zip] is defined outside the
    sources.  The spec has it extract the archive: every member is
    written beneath the folder. *)
Definition extract_zip (path folder : string) (w : world A) : option (world A) :=
  match files w !! path with
  | Some (Zip members) =>
      Some (mkWorld
              (foldl (λ m kv, <[osp.join folder [kv.1] := Text kv.2]> m)
                     (files w) members)
              (requests w))
  | _ => None
  end.

(** A stand-in for [read_tu_data] in the examples: it wants the two
    required files, [<prefix>_A.txt] and [<prefix>_graph_indicator.txt],
    in the folder and then answers with a fixed parse. *)
Definition read_tu_data (parsed : list (Data A) * Z * Z)
    (folder prefix : string) (m : gmap string (file A))
    : option (list (Data A) * Z * Z) :=
  if fs.files_exist
       [osp.join folder [prefix +:+ "_A.txt"];
        osp.join folder [prefix +:+ "_graph_indicator.txt"]] m
  then Some parsed else None.

Definition imports (net : string → option (file A))
    (parsed : list (Data A) * Z * Z) : Imports A :=
  mkImports (download_url net) extract_zip (read_tu_data parsed).

Definition inherited : Inherited A :=
  mkInherited num_node_features num_edge_features.

End Model.
End model.

(** ** What is observed of a run *)

Section Observations.
Context {A : Type} {ext : Imports A}.

(** What [process] leaves in the [k]-th processed file. *)
Definition persisted (k : nat) (s : Self A) (w : world A) : option (file A) :=
  '(_, _, w') ← process s w;
  p ← processed_paths s !! k;
  torch_load p w'.

(** The build-time pass as the spec words it: drop the records the filter
    rejects, then map the transform over those that remain; a step whose
    argument is absent is skipped. *)
Definition filter_then_transform
    (pre_filter : option (Data A → bool))
    (pre_transform : option (Data A → Data A))
    (parsed : list (Data A)) : list (Data A) :=
  match pre_filter, pre_transform with
  | Some f, Some t => t <$> List.filter f parsed
  | Some f, None => List.filter f parsed
  | None, Some t => t <$> parsed
  | None, None => parsed
  end.

End Observations.

(** ** A small dataset to run the methods on *)

Module Examples.

(** Two nodes, an edge each way.  Node matrix: two attribute columns and
    a label column; edge values: one label column. *)
Definition enzyme : Data Z :=
  mkData (Some (mkTensor 3 [[10; 20; 1]; [30; 40; 0]]))
         (mkSparse [(0, 1); (1, 0)] (Some (mkTensor 1 [[1]; [1]])))
         (Some [1]).

(** The same graph, the node matrix without its attribute columns. *)
Definition enzyme_labels : Data Z :=
  mkData (Some (mkTensor 1 [[1]; [0]]))
         (mkSparse [(0, 1); (1, 0)] (Some (mkTensor 1 [[1]; [1]])))
         (Some [1]).

(** What the reader answers: one record, two node attributes, no edge
    attribute. *)
Definition parsed : list (Data Z) * Z * Z := ([enzyme], 2, 0).

Definition archive : file Z :=
  Zip [("ENZYMES/ENZYMES_A.txt", "1, 2");
       ("ENZYMES/ENZYMES_graph_indicator.txt", "1")].

(** The canonical host serves the archive of ENZYMES and nothing else. *)
Definition net (u : string) : option (file Z) :=
  if bool_decide (u = url +:+ "/ENZYMES.zip") then Some archive else None.

Definition ext : Imports Z := model.imports net parsed.

(** [TUDataset('/data', 'ENZYMES', pre_transform=..., pre_filter=...,
    use_node_attributes=..., use_edge_attributes=...)] *)
Definition construct (pre_transform : option (Data Z → Data Z))
    (pre_filter : option (Data Z → bool))
    (use_node_attributes use_edge_attributes : bool) (w : world Z) :=
  __init__ (ext := ext) "/data" "ENZYMES" None pre_transform pre_filter
           use_node_attributes use_edge_attributes false w.

Definition this (pre_transform : option (Data Z → Data Z))
    (pre_filter : option (Data Z → bool)) : Self Z :=
  mkSelf "/data" "ENZYMES" None pre_transform pre_filter false.

Definition raw_files : list (string * file Z) :=
  [("/data/ENZYMES/raw/ENZYMES_A.txt", Text "1, 2");
   ("/data/ENZYMES/raw/ENZYMES_graph_indicator.txt", Text "1")].

Definition processed_files (l : list (Data Z)) (nna nea : Z)
    : list (string * file Z) :=
  [("/data/ENZYMES/processed/data.pt", SavedList l);
   ("/data/ENZYMES/processed/num_node_attributes.pt", SavedInt nna);
   ("/data/ENZYMES/processed/num_edge_attributes.pt", SavedInt nea)].

(** Nothing on disk; the raw files only; raw and processed files after a
    download. *)
Definition empty_disk : world Z := mkWorld ∅ [].
Definition raw_disk : world Z := mkWorld (list_to_map raw_files) [].
Definition full_disk (l : list (Data Z)) (nna nea : Z) : world Z :=
  mkWorld (list_to_map (raw_files ++ processed_files l nna nea))
          [url +:+ "/ENZYMES.zip"].

(** A raw directory left over with a file that is not required, and the
    disk after the download: the raw directory is the extracted one. *)
Definition stale_disk : world Z :=
  mkWorld (list_to_map [("/data/ENZYMES/raw/stale.txt", Text "old")]) [].
Definition fetched_disk : world Z :=
  mkWorld (list_to_map raw_files) [url +:+ "/ENZYMES.zip"].

(** In between: the archive fetched, then extracted next to it. *)
Definition zip_path : string := "/data/ENZYMES/ENZYMES.zip".
Definition downloaded_disk : world Z :=
  mkWorld (list_to_map [("/data/ENZYMES/raw/stale.txt", Text "old");
                        (zip_path, archive)])
          [url +:+ "/ENZYMES.zip"].
Definition extracted_disk : world Z :=
  mkWorld (list_to_map [("/data/ENZYMES/raw/stale.txt", Text "old");
                        (zip_path, archive);
                        ("/data/ENZYMES/ENZYMES/ENZYMES_A.txt", Text "1, 2");
                        ("/data/ENZYMES/ENZYMES/ENZYMES_graph_indicator.txt",
                         Text "1")])
          [url +:+ "/ENZYMES.zip"].

(** Raw and processed files with nothing fetched. *)
Definition built_disk (l : list (Data Z)) (nna nea : Z) : world Z :=
  mkWorld (list_to_map (raw_files ++ processed_files l nna nea)) [].

(** A processed cache alone, as an earlier run left it. *)
Definition cache (l : list (Data Z)) (nna nea : Z) : world Z :=
  mkWorld (list_to_map (processed_files l nna nea)) [].

(** A pre_transform that keeps the last node column only, and a
    pre_filter that rejects every record. *)
Definition keep_last_column (data : Data Z) : Data Z :=
  mkData (slice_columns (-1) <$> x data) (adj data) (y data).
Definition reject (data : Data Z) : bool := false.

(** A graph with four node columns (two attributes, two labels), and the
    one with its two label columns alone. *)
Definition four_columns : Data Z :=
  mkData (Some (mkTensor 4 [[10; 20; 1; 0]; [30; 40; 0; 1]]))
         (mkSparse [(0, 1); (1, 0)] None) None.
Definition two_columns : Data Z :=
  mkData (Some (mkTensor 2 [[1; 0]; [0; 1]]))
         (mkSparse [(0, 1); (1, 0)] None) None.

End Examples.

(** ** More inputs *)

(** A path component that holds no separator. *)
Fixpoint sep_free (s : string) : bool :=
  match s with
  | EmptyString => true
  | String c rest => negb (bool_decide (c = "/"%char)) && sep_free rest
  end.

(** A component that names a directory of its own: not empty, without
    separator, and neither [.] (the directory it is written in) nor [..]
    (the one above). *)
Definition directory_name (n : string) : bool :=
  negb (bool_decide (n = "")) && sep_free n
  && negb (bool_decide (n = ".")) && negb (bool_decide (n = "..")).

(** What [posixpath.join] has before a relative component that follows
    [path]: [path] itself when it is empty or ends with the separator,
    [path] and a separator otherwise. *)
Definition joined_before (path : string) : string :=
  if bool_decide (path = "") || osp.endswith_sep path then path else path +:+ osp.sep.

(** Whether a pass of the constructor slices (lines 70 and 74). *)
Definition slices (count : Z) (use_attributes : bool) : bool :=
  (count >? 0) && negb use_attributes.

(** A record whose matrices, where it has them, are well shaped. *)
Definition data_wf {A} (data : Data A) : Prop :=
  (∀ t, x data = Some t → tensor_wf t) ∧
  (∀ v, value (adj data) = Some v → tensor_wf v).

(** What a record of the loaded list is, given the persisted one: each
    matrix sliced or as it was, coordinates and target as they were. *)
Definition loaded_from {A} (nna nea : Z) (un ue : bool) (data data' : Data A) : Prop :=
  x data' = (if slices nna un then slice_columns nna <$> x data else x data) ∧
  index (adj data') = index (adj data) ∧
  value (adj data')
    = (if slices nea ue then slice_columns nea <$> value (adj data)
       else value (adj data)) ∧
  y data' = y data.

(** The number of rows of a matrix that may be absent. *)
Definition num_rows {A} (t : option (Tensor A)) : option nat :=
  (λ t, length (rows t)) <$> t.

Module MoreExamples.

(** A graph without node features and without edge values. *)
Definition bare : Data Z :=
  mkData None (mkSparse [(0, 1); (1, 0)] None) (Some [0]).

(** The graph of [Examples.enzyme] with a second edge value column in
    front, and what is left of it without its attribute columns. *)
Definition valued : Data Z :=
  mkData (Some (mkTensor 3 [[10; 20; 1]; [30; 40; 0]]))
         (mkSparse [(0, 1); (1, 0)] (Some (mkTensor 2 [[7; 1]; [8; 1]])))
         (Some [1]).
Definition valued_labels : Data Z :=
  mkData (Some (mkTensor 1 [[1]; [0]]))
         (mkSparse [(0, 1); (1, 0)] (Some (mkTensor 1 [[1]; [1]])))
         (Some [1]).

(** A dataset named by an absolute path, and one named like its raw
    directory. *)
Definition absolute : Self Z := mkSelf "/data" "/tmp/ENZYMES" None None None false.
Definition named_raw : Self Z := mkSelf "/data" "raw" None None None false.

(** A host that serves an archive for the dataset named "raw", and the
    disk with that archive fetched, then extracted next to it. *)
Definition raw_archive : file Z :=
  Zip [("raw/raw_A.txt", "1, 2"); ("raw/raw_graph_indicator.txt", "1")].
Definition raw_net (u : string) : option (file Z) :=
  if bool_decide (u = url +:+ "/raw.zip") then Some raw_archive else None.
Definition raw_ext : Imports Z := model.imports raw_net Examples.parsed.
Definition raw_zip_path : string := "/data/raw/raw.zip".
Definition raw_downloaded_disk : world Z :=
  mkWorld (list_to_map [(raw_zip_path, raw_archive)]) [url +:+ "/raw.zip"].
Definition raw_extracted_disk : world Z :=
  mkWorld (list_to_map [(raw_zip_path, raw_archive);
                        ("/data/raw/raw/raw_A.txt", Text "1, 2");
                        ("/data/raw/raw/raw_graph_indicator.txt", Text "1")])
          [url +:+ "/raw.zip"].

(** Another dataset under the same root. *)
Definition proteins : Self Z := mkSelf "/data" "PROTEINS" None None None true.

End MoreExamples.

(** * Properties *)

(** ** Strings and paths *)

Section PathLemmas.

Lemma app_cons (c : ascii) (a b : string) : String c a +:+ b = String c (a +:+ b).
Proof. reflexivity. Qed.

Lemma app_empty_l (b : string) : "" +:+ b = b.
Proof. reflexivity. Qed.

Lemma app_empty_r (a : string) : a +:+ "" = a.
Proof. induction a as [|c a IH]; [done|]. by rewrite app_cons, IH. Qed.

Lemma app_assoc_s (a b c : string) : (a +:+ b) +:+ c = a +:+ b +:+ c.
Proof. induction a as [|k a IH]; [done|]. by rewrite !app_cons, IH. Qed.

Lemma endswith_sep_app (a b : string) :
  b ≠ "" → osp.endswith_sep (a +:+ b) = osp.endswith_sep b.
Proof.
  intros Hb. induction a as [|c a IH]; [done|].
  rewrite app_cons. simpl. rewrite IH.
  destruct (a +:+ b) eqn:E; [|done].
  destruct a; [by rewrite app_empty_l in E|by rewrite app_cons in E].
Qed.

Lemma relative_spec (d p rest : string) :
  fs.relative d p = Some rest ↔ p = d +:+ rest ∧ fs.is_rest rest.
Proof.
  revert p. induction d as [|a d IH]; intros p; simpl.
  - rewrite app_empty_l. destruct p as [|b p].
    + split; [intros [= <-]; split; [done|by left]|by intros [<- _]].
    + destruct (osp.startswith_sep (String b p)) eqn:E.
      * split; [intros [= <-]; split; [done|by right]|by intros [<- _]].
      * split; [done|]. intros [<- [?|?]]; congruence.
  - destruct p as [|b p]; [by split; [|intros [? _]]|].
    rewrite app_cons. case_bool_decide as Hab.
    + subst b. rewrite IH. split; intros [? ?]; split; by simplify_eq.
    + split; [done|]. intros [? _]. by simplify_eq.
Qed.

Lemma under_spec (d p : string) :
  fs.under d p = true ↔ ∃ rest, p = d +:+ rest ∧ fs.is_rest rest.
Proof.
  unfold fs.under. rewrite bool_decide_eq_true. split.
  - intros [rest Hr]. exists rest. by apply relative_spec.
  - intros [rest Hr]. exists rest. by apply relative_spec.
Qed.

Lemma under_refl (d : string) : fs.under d d = true.
Proof. apply under_spec. exists "". split; [by rewrite app_empty_r|by left]. Qed.

(** The last component of a joined path, when it is relative, is appended
    to a prefix that the components before it determine. *)
Lemma join_last (a b0 : string) :
  ∃ Q, ∀ b, osp.startswith_sep b = false → osp.join a [b0; b] = Q +:+ b.
Proof.
  unfold osp.join. simpl. set (path := osp.join_step a b0).
  exists (if bool_decide (path = "") || osp.endswith_sep path
          then path else path +:+ osp.sep).
  intros b Hb. unfold osp.join_step at 1. rewrite Hb.
  destruct (bool_decide (path = "") || osp.endswith_sep path); [done|].
  by rewrite app_assoc_s.
Qed.

(** Joining a file name to a directory that is not empty and does not end
    with the separator puts the separator between them. *)
Lemma join_file (d f : string) :
  d ≠ "" → osp.endswith_sep d = false → osp.startswith_sep f = false →
  osp.join d [f] = d +:+ "/" +:+ f.
Proof.
  intros Hd He Hf. unfold osp.join. simpl. unfold osp.join_step.
  rewrite Hf, He. by rewrite bool_decide_eq_false_2.
Qed.

End PathLemmas.

(** ** The two cache variants *)

Section Variants.
Context {A : Type}.

(** Two directories with a common prefix whose last components cannot be
    continued to the same path hold no path in common. *)
Lemma under_disjoint (Q a b path : string) :
  (∀ r1 r2, fs.is_rest r1 → fs.is_rest r2 → a +:+ r1 ≠ b +:+ r2) →
  fs.under (Q +:+ a) path && fs.under (Q +:+ b) path = false.
Proof.
  intros Hab. apply not_true_iff_false. intros [H1 H2]%andb_true_iff.
  apply under_spec in H1 as (r1 & -> & Hr1).
  apply under_spec in H2 as (r2 & E & Hr2).
  rewrite !app_assoc_s in E. apply (inj _) in E.
  by apply (Hab r1 r2).
Qed.

Lemma rest_not_underscore (r r' : string) :
  fs.is_rest r → r ≠ String "_" r'.
Proof. intros [->| Hr] E; [done|]. by subst r. Qed.

Lemma clash_raw (r1 r2 : string) :
  fs.is_rest r1 → fs.is_rest r2 → "raw_cleaned" +:+ r1 ≠ "raw" +:+ r2.
Proof.
  intros _ H2 E. repeat rewrite app_cons in E. rewrite !app_empty_l in E.
  simplify_eq. by eapply rest_not_underscore.
Qed.

Lemma clash_processed (r1 r2 : string) :
  fs.is_rest r1 → fs.is_rest r2 → "processed_cleaned" +:+ r1 ≠ "processed" +:+ r2.
Proof.
  intros _ H2 E. repeat rewrite app_cons in E. rewrite !app_empty_l in E.
  simplify_eq. by eapply rest_not_underscore.
Qed.

Lemma clash_raw_processed (a b r1 r2 : string) :
  "raw" +:+ a +:+ r1 ≠ "processed" +:+ b +:+ r2.
Proof. intros E. repeat rewrite app_cons in E. simplify_eq. Qed.

(** The directories of [s] are a common prefix, fixed by root and name,
    followed by "raw" or "processed" and the suffix of the variant. *)
Lemma dirs_shape (rt nm : string) :
  ∃ Q, ∀ t p f c,
    let s := @mkSelf A rt nm t p f c in
    raw_dir s = Q +:+ "raw" +:+ cleaned_suffix s ∧
    processed_dir s = Q +:+ "processed" +:+ cleaned_suffix s.
Proof.
  destruct (join_last rt nm) as [Q HQ]. exists Q. intros t p f c s.
  unfold raw_dir, processed_dir. subst s. cbn [root name cleaned cleaned_suffix].
  split; rewrite HQ; by destruct c.
Qed.

(** C7. For every root and name, the raw and the processed directory of
    the cleaned variant differ from both directories of the other variant,
    and no path lies at or beneath a directory of one variant and a
    directory of the other: the two caches share no file. *)
Theorem cleaned_variants_share_no_path
    (rt nm : string) (t1 p1 t2 p2 : option (Data A → Data A))
    (f1 f2 : option (Data A → bool)) :
  let sT := mkSelf rt nm t1 p1 f1 true in
  let sF := mkSelf rt nm t2 p2 f2 false in
  (raw_dir sT ≠ raw_dir sF ∧ raw_dir sT ≠ processed_dir sF ∧
   processed_dir sT ≠ raw_dir sF ∧ processed_dir sT ≠ processed_dir sF) ∧
  ∀ path,
    fs.under (raw_dir sT) path && fs.under (raw_dir sF) path = false ∧
    fs.under (raw_dir sT) path && fs.under (processed_dir sF) path = false ∧
    fs.under (processed_dir sT) path && fs.under (raw_dir sF) path = false ∧
    fs.under (processed_dir sT) path && fs.under (processed_dir sF) path = false.
Proof.
  intros sT sF. destruct (dirs_shape rt nm) as [Q HQ].
  pose proof (proj1 (HQ t1 p1 f1 true) : raw_dir sT = Q +:+ "raw_cleaned") as HrT.
  pose proof (proj2 (HQ t1 p1 f1 true)
              : processed_dir sT = Q +:+ "processed_cleaned") as HpT.
  pose proof (proj1 (HQ t2 p2 f2 false) : raw_dir sF = Q +:+ "raw") as HrF.
  pose proof (proj2 (HQ t2 p2 f2 false)
              : processed_dir sF = Q +:+ "processed") as HpF.
  assert (Hshare : ∀ path,
    fs.under (raw_dir sT) path && fs.under (raw_dir sF) path = false ∧
    fs.under (raw_dir sT) path && fs.under (processed_dir sF) path = false ∧
    fs.under (processed_dir sT) path && fs.under (raw_dir sF) path = false ∧
    fs.under (processed_dir sT) path && fs.under (processed_dir sF) path = false).
  { intros path. rewrite HrT, HpT, HrF, HpF. repeat split.
    - apply under_disjoint, clash_raw.
    - apply under_disjoint. intros r1 r2 _ _.
      apply (clash_raw_processed "_cleaned" "").
    - apply under_disjoint. intros r1 r2 _ _ E. symmetry in E.
      by apply (clash_raw_processed "" "_cleaned") in E.
    - apply under_disjoint, clash_processed. }
  split; [|done].
  repeat split; intros E.
  - destruct (Hshare (raw_dir sT)) as (H & _ & _ & _).
    rewrite under_refl, E, under_refl in H. done.
  - destruct (Hshare (raw_dir sT)) as (_ & H & _ & _).
    rewrite under_refl, E, under_refl in H. done.
  - destruct (Hshare (processed_dir sT)) as (_ & _ & H & _).
    rewrite under_refl, E, under_refl in H. done.
  - destruct (Hshare (processed_dir sT)) as (_ & _ & _ & H).
    rewrite under_refl, E, under_refl in H. done.
Qed.

End Variants.

(** ** The processed files *)

Section ProcessedPaths.
Context {A : Type} {ext : Imports A}.
Implicit Types (s : Self A) (w : world A).

(** The raw directory and the three processed paths of one object, over
    their common prefix. *)
Lemma paths_shape s :
  ∃ Q, raw_dir s = Q +:+ "raw" +:+ cleaned_suffix s ∧
       processed_paths s =
         (λ f, Q +:+ "processed" +:+ cleaned_suffix s +:+ "/" +:+ f)
           <$> processed_file_names s.
Proof.
  destruct s as [rt nm t p f c].
  destruct (dirs_shape (A:=A) rt nm) as [Q HQ]. exists Q.
  destruct (HQ t p f c) as [Hr Hp]. split; [done|].
  unfold processed_paths. rewrite Hp.
  assert (Hjoin : ∀ g, osp.startswith_sep g = false →
    osp.join (Q +:+ "processed" +:+ cleaned_suffix (mkSelf rt nm t p f c)) [g]
    = Q +:+ "processed" +:+ cleaned_suffix (mkSelf rt nm t p f c) +:+ "/" +:+ g).
  { intros g Hg. rewrite join_file; [by rewrite !app_assoc_s| | |done].
    - destruct Q; by rewrite ?app_cons, ?app_empty_l.
    - rewrite endswith_sep_app; by destruct c. }
  unfold processed_file_names. cbn [fmap list_fmap].
  by rewrite !Hjoin.
Qed.

(** The three processed paths are pairwise distinct and none lies in the
    raw directory. *)
Lemma processed_paths_distinct s :
  ∃ p0 p1 p2,
    processed_paths s = [p0; p1; p2] ∧ p0 ≠ p1 ∧ p0 ≠ p2 ∧ p1 ≠ p2 ∧
    fs.under (raw_dir s) p0 = false ∧ fs.under (raw_dir s) p1 = false ∧
    fs.under (raw_dir s) p2 = false.
Proof.
  destruct (paths_shape s) as (Q & Hr & Hp).
  rewrite Hp, Hr. simpl. do 3 eexists. split; [done|].
  assert (Hout : ∀ f, fs.under (Q +:+ "raw" +:+ cleaned_suffix s)
                   (Q +:+ "processed" +:+ cleaned_suffix s +:+ "/" +:+ f) = false).
  { intros f. apply not_true_iff_false. intros (r & E & _)%under_spec.
    rewrite !app_assoc_s in E. apply (inj _) in E.
    symmetry in E. by apply clash_raw_processed in E. }
  repeat split; try apply Hout; intros E;
    repeat apply (inj _) in E; discriminate.
Qed.

End ProcessedPaths.

(** ** process *)

Section Process.
Context {A : Type} {ext : Imports A}.
Implicit Types (s : Self A) (w : world A).

(** [process] in one piece: parse, then three saves on top of the files
    that were there. *)
Lemma process_unfold s w (p0 p1 p2 : string) :
  processed_paths s = [p0; p1; p2] →
  process s w =
    '(parsed, nna, nea) ← read_tu_data (raw_dir s) (name s) (files w);
    Some (nna, nea,
          mkWorld
            (<[p2 := SavedInt nea]>
               (<[p1 := SavedInt nna]>
                  (<[p0 := SavedList
                            (filter_then_transform (pre_filter s) (pre_transform s) parsed)]>
                     (files w))))
            (requests w)).
Proof.
  intros Hp. unfold process. rewrite Hp.
  destruct (read_tu_data _ _ _) as [[[parsed nna] nea]|]; [|done].
  simpl. unfold filter_then_transform.
  by destruct (pre_filter s), (pre_transform s).
Qed.

(** The three processed files after [process]: the list and the two
    counts, in this order; no fourth file. *)
Lemma persisted_unfold s w (k : nat) :
  persisted k s w =
    '(parsed, nna, nea) ← read_tu_data (raw_dir s) (name s) (files w);
    [SavedList (filter_then_transform (pre_filter s) (pre_transform s) parsed);
     SavedInt nna; SavedInt nea] !! k.
Proof.
  destruct (processed_paths_distinct s) as (p0 & p1 & p2 & Hp & H01 & H02 & H12 & _).
  unfold persisted. rewrite (process_unfold s w p0 p1 p2 Hp), Hp.
  destruct (read_tu_data _ _ _) as [[[parsed nna] nea]|]; [|done].
  simpl. unfold torch_load. destruct k as [|[|[|k]]]; simpl; [| | |done].
  - by rewrite 2!lookup_insert_ne, lookup_insert_eq.
  - by rewrite lookup_insert_ne, lookup_insert_eq.
  - by rewrite lookup_insert_eq.
Qed.

(** C3. The first processed file, after [process], holds the parsed list
    filtered by pre_filter and then mapped by pre_transform, a step being
    skipped when its argument is None; [process] raises exactly when the
    reader does. *)
Theorem process_persists_filter_then_transform s w :
  persisted 0 s w =
    '(parsed, _, _) ← read_tu_data (raw_dir s) (name s) (files w);
    Some (SavedList (filter_then_transform (pre_filter s) (pre_transform s) parsed)).
Proof.
  rewrite persisted_unfold.
  by destruct (read_tu_data _ _ _) as [[[parsed nna] nea]|].
Qed.

Lemma filter_rejecting (f : Data A → bool) (l : list (Data A)) :
  (∀ data, data ∈ l → f data = false) → List.filter f l = [].
Proof.
  induction l as [|d l IH]; intros Hrej; [done|]. simpl.
  rewrite (Hrej d) by left. apply IH. intros ? ?. apply Hrej. by right.
Qed.

(** C8. When pre_filter rejects every parsed record, the first processed
    file holds the empty list, with or without a pre_transform. *)
Theorem process_rejecting_filter_persists_empty s w f parsed nna nea :
  pre_filter s = Some f →
  read_tu_data (raw_dir s) (name s) (files w) = Some (parsed, nna, nea) →
  (∀ data, data ∈ parsed → f data = false) →
  persisted 0 s w = Some (SavedList []).
Proof.
  intros Hf Hread Hrej. rewrite persisted_unfold, Hread. simpl.
  unfold filter_then_transform. rewrite Hf, (filter_rejecting f parsed Hrej).
  by destruct (pre_transform s).
Qed.

(** C9. The second and third processed files hold the two counts exactly
    as the reader returned them; the callbacks have no part in them, so
    the same counts are persisted whatever pre_filter and pre_transform
    do to the records. *)
Theorem process_persists_parser_counts s w :
  persisted 1 s w =
    ('(_, nna, _) ← read_tu_data (raw_dir s) (name s) (files w);
     Some (SavedInt nna)) ∧
  persisted 2 s w =
    ('(_, _, nea) ← read_tu_data (raw_dir s) (name s) (files w);
     Some (SavedInt nea)) ∧
  ∀ f t,
    let s' := mkSelf (root s) (name s) (transform s) t f (cleaned s) in
    persisted 1 s' w = persisted 1 s w ∧ persisted 2 s' w = persisted 2 s w.
Proof.
  split; [|split].
  - rewrite persisted_unfold.
    by destruct (read_tu_data _ _ _) as [[[parsed nna] nea]|].
  - rewrite persisted_unfold.
    by destruct (read_tu_data _ _ _) as [[[parsed nna] nea]|].
  - intros f t s'. rewrite !persisted_unfold.
    change (raw_dir s') with (raw_dir s). change (name s') with (name s).
    by destruct (read_tu_data _ _ _) as [[[parsed nna] nea]|].
Qed.

End Process.

(** ** Slicing columns *)

Section Slicing.
Context {A : Type}.

Lemma slice_start_le (a : Z) (w : nat) : (slice_start a w ≤ w)%nat.
Proof. unfold slice_start. destruct (Z.ltb_spec a 0); lia. Qed.

Lemma slice_start_nonneg (a : Z) (w : nat) :
  0 ≤ a → Z.of_nat (slice_start a w) = Z.min a (Z.of_nat w).
Proof. intros Ha. unfold slice_start. destruct (Z.ltb_spec a 0); lia. Qed.

(** The slice of a well-shaped tensor is well shaped. *)
Lemma slice_columns_wf (a : Z) (t : Tensor A) :
  tensor_wf t → tensor_wf (slice_columns a t).
Proof.
  unfold tensor_wf, slice_columns. simpl. intros Hwf.
  apply Forall_fmap. eapply Forall_impl; [exact Hwf|].
  intros r Hr. simpl in *. rewrite length_drop. lia.
Qed.

(** [t[:, a:]] with [a] not negative has the columns of [t] but the first
    [a], none when [t] has no more than [a]. *)
Lemma slice_columns_size (a : Z) (t : Tensor A) :
  0 ≤ a →
  Z.of_nat (size1 (slice_columns a t))
  = Z.of_nat (size1 t) - Z.min a (Z.of_nat (size1 t)).
Proof.
  intros Ha. unfold slice_columns. simpl.
  pose proof (slice_start_le a (size1 t)).
  pose proof (slice_start_nonneg a (size1 t) Ha). lia.
Qed.

(** What line 72 does to the columns of every record. *)
Lemma node_pass_columns (nna : Z) (l l' : list (Data A)) :
  nna > 0 → node_pass nna false l = Some l' →
  Forall2 (λ data data',
             node_columns data' = node_columns data - Z.min nna (node_columns data))
          l l'.
Proof.
  intros Hpos. unfold node_pass.
  rewrite (proj2 (Z.gtb_lt nna 0)) by lia. simpl.
  intros Hl%mapM_Some. induction Hl as [|d d' l l' Hd _ IH]; constructor; [|done].
  unfold strip_x in Hd. destruct (x d) as [t|] eqn:Hx; [|done]. simplify_eq/=.
  unfold node_columns. rewrite Hx. simpl. by apply slice_columns_size; lia.
Qed.

End Slicing.

(** ** The constructor *)

Section Constructor.
Context {A : Type} {ext : Imports A}.
Implicit Types (s : Self A) (w : world A) (ds : TUDataset A).

Lemma mapM_strip_value_x (a : Z) (l k : list (Data A)) :
  mapM (strip_value a) l = Some k → x <$> k = x <$> l.
Proof.
  intros Hk%mapM_Some. induction Hk as [|d d' l k Hd _ IH]; [done|].
  rewrite !fmap_cons, IH. f_equal.
  unfold strip_value in Hd. destruct (value (adj d)); by simplify_eq/=.
Qed.

Lemma mapM_strip_x_value (a : Z) (l k : list (Data A)) :
  mapM (strip_x a) l = Some k → (value ∘ adj) <$> k = (value ∘ adj) <$> l.
Proof.
  intros Hk%mapM_Some. induction Hk as [|d d' l k Hd _ IH]; [done|].
  rewrite !fmap_cons, IH. f_equal.
  unfold strip_x in Hd. destruct (x d); by simplify_eq/=.
Qed.

Lemma load_inv s un ue w ds :
  load s un ue w = Some ds →
  ∃ l l1,
    (p0 ← processed_paths s !! 0%nat; load_list p0 w) = Some l ∧
    (p1 ← processed_paths s !! 1%nat; load_int p1 w) = Some (num_node_attributes ds) ∧
    (p2 ← processed_paths s !! 2%nat; load_int p2 w) = Some (num_edge_attributes ds) ∧
    node_pass (num_node_attributes ds) un l = Some l1 ∧
    edge_pass (num_edge_attributes ds) ue l1 = Some (data_list ds) ∧
    self ds = s.
Proof.
  unfold load. intros Hload.
  destruct (processed_paths_distinct s) as (p0 & p1 & p2 & Hp & _).
  rewrite Hp in Hload |- *. simpl in Hload |- *.
  destruct (load_list p0 w) as [l|]; [|done]. simpl in Hload.
  destruct (load_int p1 w) as [nna|]; [|done]. simpl in Hload.
  destruct (load_int p2 w) as [nea|]; [|done]. simpl in Hload.
  destruct (node_pass nna un l) as [l1|] eqn:H1; [|done]. simpl in Hload.
  destruct (edge_pass nea ue l1) as [l2|] eqn:H2; [|done]. simpl in Hload.
  simplify_eq. by exists l, l1.
Qed.

(** The node pass record by record. *)
Lemma node_pass_spec (nna : Z) (un : bool) (l l1 : list (Data A)) :
  node_pass nna un l = Some l1 →
  Forall2 (λ data data',
             x data' = (if slices nna un then slice_columns nna <$> x data else x data) ∧
             adj data' = adj data ∧ y data' = y data) l l1.
Proof.
  unfold node_pass, slices. destruct ((nna >? 0) && negb un).
  - intros Hl%mapM_Some. induction Hl as [|d d' l l1 Hd _ IH]; constructor; [|done].
    unfold strip_x in Hd. destruct (x d) as [t|]; by simplify_eq/=.
  - intros [= <-]. by apply Forall_Forall2_diag, Forall_true.
Qed.

(** The edge pass record by record. *)
Lemma edge_pass_spec (nea : Z) (ue : bool) (l l1 : list (Data A)) :
  edge_pass nea ue l = Some l1 →
  Forall2 (λ data data',
             x data' = x data ∧ index (adj data') = index (adj data) ∧
             value (adj data')
               = (if slices nea ue then slice_columns nea <$> value (adj data)
                  else value (adj data)) ∧
             y data' = y data) l l1.
Proof.
  unfold edge_pass, slices. destruct ((nea >? 0) && negb ue).
  - intros Hl%mapM_Some. induction Hl as [|d d' l l1 Hd _ IH]; constructor; [|done].
    unfold strip_value in Hd. destruct (value (adj d)) as [v|]; by simplify_eq/=.
  - intros [= <-]. by apply Forall_Forall2_diag, Forall_true.
Qed.

Lemma passes_compose (nna nea : Z) (un ue : bool) (l l1 l2 : list (Data A)) :
  node_pass nna un l = Some l1 → edge_pass nea ue l1 = Some l2 →
  Forall2 (loaded_from nna nea un ue) l l2.
Proof.
  intros H1%node_pass_spec H2%edge_pass_spec.
  eapply Forall2_trans; [|exact H1|exact H2].
  intros d d1 d2 (Hx & Ha & Hy) (Hx' & Hi & Hv & Hy'). unfold loaded_from.
  rewrite Hx', Hx, Hi, Hv, Hy', Hy, Ha. done.
Qed.

(** The first record the constructor hands out, given the first persisted
    one: a matrix of it is the persisted one when its pass does not
    slice. *)
Lemma load_first_record s un ue w ds (data : Data A) :
  load s un ue w = Some ds →
  (p0 ← processed_paths s !! 0%nat; l ← load_list p0 w; head l) = Some data →
  ∃ data',
    head (data_list ds) = Some data' ∧
    (slices (num_node_attributes ds) un = false → x data' = x data) ∧
    (slices (num_edge_attributes ds) ue = false →
       value (adj data') = value (adj data)).
Proof.
  intros (l & l1 & Hl & _ & _ & H1 & H2 & _)%load_inv Hhead.
  destruct (processed_paths s !! 0%nat) as [p0|]; [|done]. simpl in Hl, Hhead.
  rewrite Hl in Hhead. simpl in Hhead.
  pose proof (passes_compose _ _ _ _ _ _ _ H1 H2) as HF.
  destruct HF as [|d d' l l' (Hx & _ & Hv & _) _]; [done|].
  simpl in Hhead. injection Hhead as ->. exists d'. split; [done|].
  split; intros Hs; rewrite Hs in *; done.
Qed.

Lemma init_inv rt nm tr pt pf un ue c w ds w' :
  __init__ rt nm tr pt pf un ue c w = Some (ds, w') →
  super_init (mkSelf rt nm tr pt pf c) w = Some w' ∧
  load (mkSelf rt nm tr pt pf c) un ue w' = Some ds.
Proof.
  unfold __init__. intros Hi.
  destruct (super_init _ w) as [w1|]; [|done]. simpl in Hi.
  destruct (load _ un ue w1) as [ds1|] eqn:Hl; [|done]. by simplify_eq/=.
Qed.

(** C10. Whatever the two flags, a dataset whose persisted
    num_node_attributes is 0 comes out of the constructor with every
    record's node feature matrix as it was persisted, and one whose
    persisted num_edge_attributes is 0 with every record's edge value
    channels as persisted; with both counts 0 the list is the persisted
    list. *)
Theorem init_keeps_matrices_without_attributes rt nm tr pt pf un ue c w ds w' :
  __init__ rt nm tr pt pf un ue c w = Some (ds, w') →
  ∃ l,
    (p0 ← processed_paths (self ds) !! 0%nat; load_list p0 w') = Some l ∧
    (p1 ← processed_paths (self ds) !! 1%nat; load_int p1 w')
      = Some (num_node_attributes ds) ∧
    (p2 ← processed_paths (self ds) !! 2%nat; load_int p2 w')
      = Some (num_edge_attributes ds) ∧
    (num_node_attributes ds = 0 → x <$> data_list ds = x <$> l) ∧
    (num_edge_attributes ds = 0 →
       (value ∘ adj) <$> data_list ds = (value ∘ adj) <$> l) ∧
    (num_node_attributes ds = 0 → num_edge_attributes ds = 0 → data_list ds = l).
Proof.
  intros [_ Hload]%init_inv.
  destruct (load_inv _ _ _ _ _ Hload) as (l & l1 & Hl & Hn & He & H1 & H2 & Hs).
  rewrite Hs. exists l. do 3 (split; [done|]).
  unfold node_pass in H1. unfold edge_pass in H2. repeat split.
  - intros H0. rewrite H0 in H1. simpl in H1. simplify_eq.
    destruct ((num_edge_attributes ds >? 0) && negb ue); [|by simplify_eq].
    by eapply mapM_strip_value_x.
  - intros H0. rewrite H0 in H2. simpl in H2. simplify_eq.
    destruct ((num_node_attributes ds >? 0) && negb un); [|by simplify_eq].
    by eapply mapM_strip_x_value.
  - intros Hn0 He0. rewrite Hn0 in H1. rewrite He0 in H2. simpl in H1, H2.
    by simplify_eq.
Qed.

End Constructor.

(** ** The two-stage cache *)

Section Cache.
Context {A : Type} {ext : Imports A}.
Implicit Types (s : Self A) (w : world A) (ds : TUDataset A).

Lemma process_inv s w nna nea w' :
  process s w = Some (nna, nea, w') →
  ∃ p0 p1 p2 l,
    processed_paths s = [p0; p1; p2] ∧
    files w' = <[p2 := SavedInt nea]> (<[p1 := SavedInt nna]>
                 (<[p0 := SavedList l]> (files w))) ∧
    requests w' = requests w.
Proof.
  destruct (processed_paths_distinct s) as (p0 & p1 & p2 & Hp & _).
  rewrite (process_unfold s w p0 p1 p2 Hp).
  destruct (read_tu_data _ _ _) as [[[parsed a] e]|]; [|done].
  simpl. intros ?; simplify_eq. by eexists _, _, _, _.
Qed.

Lemma process_leaves_processed_files s w nna nea w' :
  process s w = Some (nna, nea, w') →
  fs.files_exist (processed_paths s) (files w') = true.
Proof.
  intros (p0 & p1 & p2 & l & Hp & Hf & _)%process_inv.
  rewrite Hp, Hf. unfold fs.files_exist. simpl.
  rewrite !bool_decide_eq_true_2; [done|..];
    rewrite !lookup_insert_is_Some'; auto.
Qed.

Lemma super_init_leaves_processed_files s w w' :
  super_init s w = Some w' →
  fs.files_exist (processed_paths s) (files w') = true.
Proof.
  unfold super_init.
  destruct (fs.files_exist (processed_paths s) (files w)) eqn:Hex.
  - by intros [= <-].
  - intros Hs. destruct (if fs.files_exist (raw_paths s) (files w) then _ else _)
      as [w1|]; [|done]. simpl in Hs.
    destruct (process s w1) as [[[nna nea] w2]|] eqn:Hp; [|done].
    simpl in Hs. simplify_eq. by eapply process_leaves_processed_files.
Qed.

(** C4. When a construction succeeds, constructing once more with the
    same arguments, on the disk the first construction left, gives the
    same object (the same record list and counts) and leaves the disk as
    it is. *)
Theorem init_twice_same rt nm tr pt pf un ue c w ds w' :
  __init__ rt nm tr pt pf un ue c w = Some (ds, w') →
  __init__ rt nm tr pt pf un ue c w' = Some (ds, w').
Proof.
  intros [Hs Hl]%init_inv.
  apply super_init_leaves_processed_files in Hs.
  unfold __init__, super_init. rewrite Hs. simpl. by rewrite Hl.
Qed.

(** C5. [process] fetches nothing and changes no file but the three
    processed files, none of which is in the raw directory; when the
    reader's answer depends on the files of the folder it is given only,
    so does everything [process] persists; and when the required raw files
    are there while a processed file is missing, the base constructor goes
    straight to [process], without [download]. *)
Theorem process_keeps_raw_and_fetches_nothing s w :
  (∀ nna nea w', process s w = Some (nna, nea, w') →
     requests w' = requests w ∧
     (∀ path, path ∉ processed_paths s → files w' !! path = files w !! path) ∧
     (∀ path, fs.under (raw_dir s) path = true → files w' !! path = files w !! path)) ∧
  (∀ w2,
     (∀ m1 m2, fs.subtree (raw_dir s) m1 = fs.subtree (raw_dir s) m2 →
        read_tu_data (raw_dir s) (name s) m1 = read_tu_data (raw_dir s) (name s) m2) →
     fs.subtree (raw_dir s) (files w) = fs.subtree (raw_dir s) (files w2) →
     ∀ k, persisted k s w = persisted k s w2) ∧
  (fs.files_exist (raw_paths s) (files w) = true →
   fs.files_exist (processed_paths s) (files w) = false →
   super_init s w = ('(_, _, w') ← process s w; Some w')).
Proof.
  split; [|split].
  - intros nna nea w' (p0 & p1 & p2 & l & Hp & Hf & Hr)%process_inv.
    split; [done|].
    assert (Hout : ∀ path, path ∉ processed_paths s →
              files w' !! path = files w !! path).
    { intros path Hnot. rewrite Hp in Hnot. rewrite Hf.
      rewrite !lookup_insert_ne; [done|..]; intros ->; apply Hnot; set_solver. }
    split; [done|]. intros path Hu. apply Hout.
    destruct (processed_paths_distinct s)
      as (q0 & q1 & q2 & Hq & _ & _ & _ & H0 & H1 & H2).
    rewrite Hq. intros Hin.
    apply elem_of_cons in Hin as [->|Hin]; [congruence|].
    apply elem_of_cons in Hin as [->|Hin]; [congruence|].
    apply list_elem_of_singleton in Hin as ->. congruence.
  - intros w2 Hlocal Hsame k. rewrite !persisted_unfold.
    by rewrite (Hlocal _ _ Hsame).
  - intros Hraw Hproc. unfold super_init. by rewrite Hproc, Hraw.
Qed.

End Cache.

(** ** Renaming a directory *)

Section Rename.
Context {A : Type}.
Implicit Types m : gmap string (file A).

Lemma app_eq_app_s (a b c d : string) :
  a +:+ b = c +:+ d →
  ∃ t, (a = c +:+ t ∧ d = t +:+ b) ∨ (c = a +:+ t ∧ b = t +:+ d).
Proof.
  revert c. induction a as [|k a IH]; intros c E.
  - exists c. right. by rewrite !app_empty_l in *.
  - destruct c as [|k' c].
    + exists (String k a). left. by rewrite !app_empty_l in *.
    + rewrite !app_cons in E. injection E as -> E.
      destruct (IH c E) as [t [[-> ->]|[-> ->]]]; exists t; [left|right];
        by rewrite app_cons.
Qed.

Lemma is_rest_prefix (t r : string) : fs.is_rest (t +:+ r) → fs.is_rest t.
Proof.
  destruct t as [|k t]; [by left|]. rewrite app_cons.
  intros [?|Hs]; [done|]. by right.
Qed.

Lemma is_rest_app (t r : string) : fs.is_rest t → fs.is_rest r → fs.is_rest (t +:+ r).
Proof.
  intros [->|Ht] Hr; [by rewrite app_empty_l|].
  destruct t as [|k t]; [done|]. rewrite app_cons. by right.
Qed.

Lemma under_trans (a b p : string) :
  fs.under a b = true → fs.under b p = true → fs.under a p = true.
Proof.
  intros (r1 & -> & H1)%under_spec (r2 & -> & H2)%under_spec.
  apply under_spec. exists (r1 +:+ r2). split; [by rewrite app_assoc_s|].
  by apply is_rest_app.
Qed.

(** Two directories, neither inside the other, have no path in common. *)
Lemma under_apart (src dst p : string) :
  fs.under src dst = false → fs.under dst src = false →
  fs.under src p = true → fs.under dst p = true → False.
Proof.
  intros Hsd Hds (r1 & -> & H1)%under_spec (r2 & E & H2)%under_spec.
  destruct (app_eq_app_s _ _ _ _ E) as [t [[-> ->]|[-> ->]]].
  - assert (fs.under dst (dst +:+ t) = true); [|congruence].
    apply under_spec. exists t. split; [done|]. by eapply is_rest_prefix.
  - assert (fs.under src (src +:+ t) = true); [|congruence].
    apply under_spec. exists t. split; [done|]. by eapply is_rest_prefix.
Qed.

Lemma relative_app (d rest : string) :
  fs.is_rest rest → fs.relative d (d +:+ rest) = Some rest.
Proof. intros Hr. by apply relative_spec. Qed.

Lemma relative_None (d p : string) :
  fs.relative d p = None ↔ fs.under d p = false.
Proof.
  unfold fs.under. rewrite bool_decide_eq_false, <-eq_None_not_Some. done.
Qed.

Lemma relative_under (d p rest : string) :
  fs.relative d p = Some rest → fs.under d p = true.
Proof. intros Hr. apply bool_decide_eq_true. by eexists. Qed.

(** Moving the tree twice brings every path back. *)
Lemma move_path_twice (src dst p : string) :
  fs.under src dst = false → fs.under dst src = false →
  fs.move_path src dst (fs.move_path src dst p) = p.
Proof.
  intros Hsd Hds. unfold fs.move_path at 2.
  destruct (fs.relative src p) as [rest|] eqn:E1.
  - apply relative_spec in E1 as [-> Hr]. unfold fs.move_path.
    destruct (fs.relative src (dst +:+ rest)) as [r'|] eqn:E2.
    + exfalso. apply (under_apart src dst (dst +:+ rest)); try done.
      * by eapply relative_under.
      * apply under_spec. by exists rest.
    + by rewrite relative_app.
  - destruct (fs.relative dst p) as [rest|] eqn:E2.
    + apply relative_spec in E2 as [-> Hr]. unfold fs.move_path.
      by rewrite relative_app.
    + unfold fs.move_path. by rewrite E1, E2.
Qed.

Lemma subtree_lookup (d p : string) m :
  fs.subtree d m !! p = if fs.under d p then m !! p else None.
Proof.
  unfold fs.subtree. destruct (fs.under d p) eqn:Hu.
  - destruct (m !! p) as [f|] eqn:Hm.
    + by apply map_lookup_filter_Some.
    + apply map_lookup_filter_None. left. done.
  - apply map_lookup_filter_None. right. intros f _. simpl. congruence.
Qed.

Lemma subtree_agree (d p : string) m1 m2 :
  fs.subtree d m1 = fs.subtree d m2 → fs.under d p = true → m1 !! p = m2 !! p.
Proof.
  intros Hsub Hu. apply (f_equal (.!! p)) in Hsub.
  by rewrite !subtree_lookup, Hu in Hsub.
Qed.

(** What [os.rename] leaves: the tree that was at [src] is at [dst],
    nothing is at [src], every other path is as before. *)
Lemma rename_spec (src dst : string) m m' :
  fs.rename src dst m = Some m' →
  fs.under src dst = false ∧ fs.under dst src = false ∧
  (∀ rest, fs.is_rest rest → m' !! (dst +:+ rest) = m !! (src +:+ rest)) ∧
  (∀ p, fs.under src p = true → m' !! p = None) ∧
  (∀ p, fs.under src p = false → fs.under dst p = false → m' !! p = m !! p).
Proof.
  unfold fs.rename. case_bool_decide as Hsrc; [done|].
  destruct (fs.under src dst) eqn:Hsd; [done|].
  case_bool_decide as Hdst; [|done]. intros [= <-].
  assert (Hds : fs.under dst src = false).
  { apply not_true_iff_false. intros Hds.
    apply map_choose in Hsrc as (p & f & Hp).
    rewrite subtree_lookup in Hp. destruct (fs.under src p) eqn:Hu; [|done].
    assert (Hq : fs.subtree dst m !! p = Some f).
    { rewrite subtree_lookup. by rewrite (under_trans dst src p). }
    by rewrite Hdst in Hq. }
  assert (Hnone : ∀ p, fs.under dst p = true → m !! p = None).
  { intros p Hu. assert (Hq : fs.subtree dst m !! p = None) by by rewrite Hdst.
    rewrite subtree_lookup in Hq. by rewrite Hu in Hq. }
  assert (Hinj : Inj (=) (=) (fs.move_path src dst)).
  { intros p q Hpq. rewrite <-(move_path_twice src dst p), Hpq by done.
    by apply move_path_twice. }
  assert (Hlook : ∀ p,
    (kmap (fs.move_path src dst) m : gmap string (file A)) !! p
    = m !! fs.move_path src dst p).
  { intros p. rewrite <-(move_path_twice src dst p) at 1 by done.
    apply (lookup_kmap _). }
  repeat split; try done.
  - intros rest Hr. rewrite Hlook. unfold fs.move_path.
    destruct (fs.relative src (dst +:+ rest)) as [r'|] eqn:E.
    + exfalso. apply (under_apart src dst (dst +:+ rest)); try done.
      * by eapply relative_under.
      * apply under_spec. by exists rest.
    + by rewrite relative_app.
  - intros p Hu. rewrite Hlook. unfold fs.move_path.
    destruct (fs.relative src p) as [rest|] eqn:E.
    + apply relative_spec in E as [-> Hr]. apply Hnone.
      apply under_spec. by exists rest.
    + apply relative_None in E. congruence.
  - intros p Hs Hd. rewrite Hlook. unfold fs.move_path.
    apply relative_None in Hs, Hd. by rewrite Hs, Hd.
Qed.

End Rename.

(** ** download *)

Section Download.
Context {A : Type} {ext : Imports A}.
Implicit Types (s : Self A) (w : world A).

Lemma on_files_inv (op : gmap string (file A) → option (gmap string (file A))) w w' :
  on_files op w = Some w' →
  op (files w) = Some (files w') ∧ requests w' = requests w.
Proof.
  unfold on_files. destruct (op (files w)) as [m|]; [|done].
  simpl. by intros [= <-].
Qed.

Lemma rmtree_lookup (d p : string) (m m' : gmap string (file A)) :
  fs.rmtree d m = Some m' →
  m' !! p = if fs.under d p then None else m !! p.
Proof.
  unfold fs.rmtree. destruct (m !! d); [done|]. intros [= <-].
  destruct (fs.under d p) eqn:Hu.
  - apply map_lookup_filter_None. right. intros f _. simpl. congruence.
  - destruct (m !! p) as [f|] eqn:Hm.
    + by apply map_lookup_filter_Some.
    + apply map_lookup_filter_None. by left.
Qed.



End Download.

(** ** Label counts *)

Section LabelCounts.
Context {A : Type}.

(** With the feature count read off the first record held, num_node_labels
    is the number of columns of that record less num_node_attributes: it
    is not the number of columns once an attribute is counted. *)
Lemma num_node_labels_less_than_columns (ds : TUDataset A) (data : Data A) :
  head (data_list ds) = Some data → num_node_attributes ds > 0 →
  num_node_labels (base := model.inherited) ds
    = Some (node_columns data - num_node_attributes ds) ∧
  num_node_labels (base := model.inherited) ds ≠ Some (node_columns data).
Proof.
  intros Hhead Hpos. unfold num_node_labels. simpl.
  unfold model.num_node_features. rewrite Hhead. simpl.
  split; [done|]. intros [= E]. lia.
Qed.

(** C2, amended. For every constructed dataset, whatever the two flags,
    num_node_labels is num_node_features - num_node_attributes and
    num_edge_labels is num_edge_features - num_edge_attributes, whatever the
    inherited properties return, the two attribute counts being the
    integers of the second and third processed file.  Neither difference is
    checked against 0.
    With the feature counts read off the first record held, num_node_labels
    is the width of the first persisted node matrix less num_node_attributes
    whenever the node pass does not slice (the count is not positive or
    use_node_attributes is True), and so at least 0 when that matrix has at
    least num_node_attributes columns; likewise num_edge_labels with the
    edge values, num_edge_attributes and use_edge_attributes.  A dataset
    without attributes has both at least 0 under any flags. *)
Theorem labels_are_features_minus_attributes :
  (∀ (base : Inherited A) (ds : TUDataset A),
     num_node_labels ds
       = (nnf ← num_node_features ds; Some (nnf - num_node_attributes ds)) ∧
     num_edge_labels ds
       = (nef ← num_edge_features ds; Some (nef - num_edge_attributes ds))) ∧
  (∀ (ext : Imports A) (base : Inherited A) rt nm tr pt pf un ue c w ds w',
     __init__ rt nm tr pt pf un ue c w = Some (ds, w') →
     ∃ nna nea,
       (p1 ← processed_paths (self ds) !! 1%nat; load_int p1 w') = Some nna ∧
       (p2 ← processed_paths (self ds) !! 2%nat; load_int p2 w') = Some nea ∧
       num_node_labels ds = (nnf ← num_node_features ds; Some (nnf - nna)) ∧
       num_edge_labels ds = (nef ← num_edge_features ds; Some (nef - nea))) ∧
  (∀ (ext : Imports A) rt nm tr pt pf un ue c w ds w' data,
     __init__ rt nm tr pt pf un ue c w = Some (ds, w') →
     (p0 ← processed_paths (self ds) !! 0%nat; l ← load_list p0 w'; head l)
       = Some data →
     (slices (num_node_attributes ds) un = false →
      num_node_labels (base := model.inherited) ds
        = Some (node_columns data - num_node_attributes ds) ∧
      (num_node_attributes ds ≤ node_columns data →
       ∃ n, num_node_labels (base := model.inherited) ds = Some n ∧ 0 ≤ n)) ∧
     (slices (num_edge_attributes ds) ue = false →
      num_edge_labels (base := model.inherited) ds
        = Some (edge_columns data - num_edge_attributes ds) ∧
      (num_edge_attributes ds ≤ edge_columns data →
       ∃ e, num_edge_labels (base := model.inherited) ds = Some e ∧ 0 ≤ e)) ∧
     (num_node_attributes ds = 0 →
      ∃ n, num_node_labels (base := model.inherited) ds = Some n ∧ 0 ≤ n) ∧
     (num_edge_attributes ds = 0 →
      ∃ e, num_edge_labels (base := model.inherited) ds = Some e ∧ 0 ≤ e)).
Proof.
  split; [intros base ds; split; reflexivity|]. split.
  { intros ext base rt nm tr pt pf un ue c w ds w' [_ Hload]%init_inv.
    destruct (load_inv _ _ _ _ _ Hload) as (_ & _ & _ & Hn & He & _ & _ & Hs).
    exists (num_node_attributes ds), (num_edge_attributes ds).
    rewrite Hs. by repeat split. }
  intros ext rt nm tr pt pf un ue c w ds w' data [_ Hload]%init_inv Hhead.
  pose proof (load_inv _ _ _ _ _ Hload) as (_ & _ & _ & _ & _ & _ & _ & Hs).
  rewrite Hs in Hhead.
  destruct (load_first_record _ _ _ _ _ _ Hload Hhead) as (data' & Hfirst & Hx & Hv).
  assert (Hnode : slices (num_node_attributes ds) un = false →
            num_node_labels (base := model.inherited) ds
            = Some (node_columns data - num_node_attributes ds)).
  { intros Hsl. unfold num_node_labels. simpl. unfold model.num_node_features.
    rewrite Hfirst. simpl. unfold node_columns. by rewrite (Hx Hsl). }
  assert (Hedge : slices (num_edge_attributes ds) ue = false →
            num_edge_labels (base := model.inherited) ds
            = Some (edge_columns data - num_edge_attributes ds)).
  { intros Hsl. unfold num_edge_labels. simpl. unfold model.num_edge_features.
    rewrite Hfirst. simpl. unfold edge_columns. by rewrite (Hv Hsl). }
  assert (Hcn : 0 ≤ node_columns data).
  { unfold node_columns, num_columns. destruct (x data); lia. }
  assert (Hce : 0 ≤ edge_columns data).
  { unfold edge_columns, num_columns. destruct (value (adj data)); lia. }
  split; [|split; [|split]].
  - intros Hsl. split; [by apply Hnode|]. intros Hle. eexists. split; [by apply Hnode|lia].
  - intros Hsl. split; [by apply Hedge|]. intros Hle. eexists. split; [by apply Hedge|lia].
  - intros H0. eexists. split; [apply Hnode; unfold slices; by rewrite H0|]. lia.
  - intros H0. eexists. split; [apply Hedge; unfold slices; by rewrite H0|]. lia.
Qed.

End LabelCounts.

(** ** The methods on the small dataset *)

Section Runs.
Import Examples.

(** C1. After the stripping pass every record's node feature matrix should
    have num_node_labels columns, and num_node_features columns when the
    attributes are kept.  The code does not achieve both, whatever the
    inherited num_node_features is.  A cache of four-column records with
    two node attributes, loaded without attributes, and a cache of the two
    label columns alone with the same count, loaded with attributes, give
    the same object, whose records have two columns: num_node_labels would
    have to be 2 for the first and num_node_features 2 for the second,
    while num_node_labels is num_node_features - 2.  With the feature count
    read off the first record held, num_node_labels is 0, not 2. *)
Theorem num_node_labels_misses_label_columns
    (base : Inherited Z) (ext : Imports Z) :
  let ds := mkTUDataset (this None None) [two_columns] 2 0 in
  __init__ "/data" "ENZYMES" None None None false false false
      (cache [four_columns] 2 0)
    = Some (ds, cache [four_columns] 2 0) ∧
  __init__ "/data" "ENZYMES" None None None true false false
      (cache [two_columns] 2 0)
    = Some (ds, cache [two_columns] 2 0) ∧
  node_columns <$> data_list ds = [2] ∧
  ¬ (num_node_labels ds = Some 2 ∧ num_node_features ds = Some 2) ∧
  num_node_labels (base := model.inherited) ds = Some 0.
Proof.
  intros ds. split; [reflexivity|]. split; [reflexivity|].
  split; [done|]. split; [|done].
  unfold num_node_labels. intros [Hl Hf]. rewrite Hf in Hl. by simplify_eq/=.
Qed.

(** C2 does not hold as stated: the raw files are there, the reader counts two
    node attributes, a pre_transform keeps the last node column only, and
    the dataset is built and loaded with its attributes; the count
    persisted is the reader's, the records have one column, and
    num_node_labels is 1 - 2. *)
Lemma num_node_labels_negative :
  construct (Some keep_last_column) None true true raw_disk
    = Some (mkTUDataset (this (Some keep_last_column) None) [enzyme_labels] 2 0,
            built_disk [enzyme_labels] 2 0) ∧
  num_node_labels (base := model.inherited)
    (mkTUDataset (this (Some keep_last_column) None) [enzyme_labels] 2 0)
    = Some (-1) ∧
  ¬ (0 ≤ -1).
Proof. split; [reflexivity|]. split; [done|lia]. Qed.

(** Attributes kept: two node attributes, the node flag True, the edge
    flag at its default.  Then the default flags with no attribute. *)
Lemma labels_are_features_minus_attributes_witness :
  (construct None None true false (cache [enzyme] 2 0)
     = Some (mkTUDataset (this None None) [enzyme] 2 0, cache [enzyme] 2 0) ∧
   (p0 ← processed_paths (this None None) !! 0%nat;
    l ← load_list p0 (cache [enzyme] 2 0); head l) = Some enzyme ∧
   slices 2 true = false ∧ 2 ≤ node_columns enzyme ∧
   slices 0 false = false ∧ 0 ≤ edge_columns enzyme ∧
   num_node_labels (base := model.inherited)
     (mkTUDataset (this None None) [enzyme] 2 0) = Some (3 - 2) ∧
   (∃ n, num_node_labels (base := model.inherited)
           (mkTUDataset (this None None) [enzyme] 2 0) = Some n ∧ 0 ≤ n) ∧
   (∃ e, num_edge_labels (base := model.inherited)
           (mkTUDataset (this None None) [enzyme] 2 0) = Some e ∧ 0 ≤ e)) ∧
  (construct None None false false (cache [enzyme] 0 0)
     = Some (mkTUDataset (this None None) [enzyme] 0 0, cache [enzyme] 0 0) ∧
   (p0 ← processed_paths (this None None) !! 0%nat;
    l ← load_list p0 (cache [enzyme] 0 0); head l) = Some enzyme ∧
   (∃ n, num_node_labels (base := model.inherited)
           (mkTUDataset (this None None) [enzyme] 0 0) = Some n ∧ 0 ≤ n) ∧
   (∃ e, num_edge_labels (base := model.inherited)
           (mkTUDataset (this None None) [enzyme] 0 0) = Some e ∧ 0 ≤ e)).
Proof.
  split.
  - destruct (proj2 (proj2 labels_are_features_minus_attributes) ext
                "/data" "ENZYMES" None None None true false false (cache [enzyme] 2 0)
                (mkTUDataset (this None None) [enzyme] 2 0) (cache [enzyme] 2 0) enzyme
                eq_refl eq_refl) as (Hn & He & _ & _).
    destruct (Hn eq_refl) as [Hn1 Hn2]. destruct (He eq_refl) as [_ He2].
    split; [reflexivity|]. split; [reflexivity|]. split; [reflexivity|].
    split; [by compute|]. split; [reflexivity|]. split; [by compute|].
    split; [exact Hn1|]. split; [apply Hn2; by compute|apply He2; by compute].
  - destruct (proj2 (proj2 labels_are_features_minus_attributes) ext
                "/data" "ENZYMES" None None None false false false (cache [enzyme] 0 0)
                (mkTUDataset (this None None) [enzyme] 0 0) (cache [enzyme] 0 0) enzyme
                eq_refl eq_refl) as (_ & _ & Hn & He).
    split; [reflexivity|]. split; [reflexivity|].
    split; [exact (Hn eq_refl)|exact (He eq_refl)].
Defined.

Lemma init_twice_same_witness :
  construct None None false false empty_disk
    = Some (mkTUDataset (this None None) [enzyme_labels] 2 0, full_disk [enzyme] 2 0) ∧
  construct None None false false (full_disk [enzyme] 2 0)
    = Some (mkTUDataset (this None None) [enzyme_labels] 2 0, full_disk [enzyme] 2 0).
Proof.
  split; [reflexivity|].
  apply (init_twice_same (ext := ext) "/data" "ENZYMES" None None None
           false false false empty_disk). reflexivity.
Defined.

Lemma process_keeps_raw_and_fetches_nothing_witness :
  process (ext := ext) (this None None) raw_disk
    = Some (2, 0, built_disk [enzyme] 2 0) ∧
  (∀ m1 m2 : gmap string (file Z),
     fs.subtree (raw_dir (this None None)) m1
       = fs.subtree (raw_dir (this None None)) m2 →
     read_tu_data (Imports := ext) (raw_dir (this None None))
         (name (this None None)) m1
     = read_tu_data (Imports := ext) (raw_dir (this None None))
         (name (this None None)) m2) ∧
  fs.subtree (raw_dir (this None None)) (files raw_disk)
    = fs.subtree (raw_dir (this None None)) (files (built_disk [enzyme] 2 0)) ∧
  fs.files_exist (raw_paths (this None None)) (files raw_disk) = true ∧
  fs.files_exist (processed_paths (this None None)) (files raw_disk) = false ∧
  requests (built_disk [enzyme] 2 0) = requests raw_disk ∧
  (∀ path, fs.under (raw_dir (this None None)) path = true →
     files (built_disk [enzyme] 2 0) !! path = files raw_disk !! path) ∧
  (∀ k, persisted (ext := ext) k (this None None) raw_disk
        = persisted (ext := ext) k (this None None) (built_disk [enzyme] 2 0)) ∧
  super_init (ext := ext) (this None None) raw_disk
    = Some (built_disk [enzyme] 2 0).
Proof.
  assert (Hrun : process (ext := ext) (this None None) raw_disk
                 = Some (2, 0, built_disk [enzyme] 2 0)) by reflexivity.
  assert (Hlocal : ∀ m1 m2 : gmap string (file Z),
     fs.subtree (raw_dir (this None None)) m1
       = fs.subtree (raw_dir (this None None)) m2 →
     read_tu_data (Imports := ext) (raw_dir (this None None))
         (name (this None None)) m1
     = read_tu_data (Imports := ext) (raw_dir (this None None))
         (name (this None None)) m2).
  { intros m1 m2 Hsub.
    change (model.read_tu_data parsed (raw_dir (this None None)) "ENZYMES" m1
            = model.read_tu_data parsed (raw_dir (this None None)) "ENZYMES" m2).
    unfold model.read_tu_data, fs.files_exist. cbn [forallb].
    rewrite (subtree_agree _ _ m1 m2 Hsub) by reflexivity.
    rewrite (subtree_agree _ (osp.join _ ["ENZYMES" +:+ "_graph_indicator.txt"])
               m1 m2 Hsub) by reflexivity.
    done. }
  assert (Hsame : fs.subtree (raw_dir (this None None)) (files raw_disk)
    = fs.subtree (raw_dir (this None None)) (files (built_disk [enzyme] 2 0)))
    by reflexivity.
  destruct (process_keeps_raw_and_fetches_nothing (ext := ext)
              (this None None) raw_disk) as (Hframe & Hdep & Hsuper).
  destruct (Hframe _ _ _ Hrun) as (Hreq & _ & Hraw).
  split; [done|]. split; [done|]. split; [done|].
  split; [reflexivity|]. split; [reflexivity|].
  split; [done|]. split; [done|]. split; [by apply Hdep|].
  rewrite Hsuper, Hrun; reflexivity.
Defined.


Lemma process_rejecting_filter_persists_empty_witness :
  pre_filter (this None (Some reject)) = Some reject ∧
  read_tu_data (Imports := ext) (raw_dir (this None (Some reject)))
      (name (this None (Some reject))) (files raw_disk) = Some parsed ∧
  (∀ data, data ∈ [enzyme] → reject data = false) ∧
  persisted (ext := ext) 0 (this None (Some reject)) raw_disk = Some (SavedList []).
Proof.
  split; [done|]. split; [reflexivity|]. split; [done|].
  apply (process_rejecting_filter_persists_empty (ext := ext)
           (this None (Some reject)) raw_disk reject [enzyme] 2 0);
    [done|reflexivity|done].
Defined.

Lemma init_keeps_matrices_without_attributes_witness :
  construct None None false false (cache [enzyme] 0 0)
    = Some (mkTUDataset (this None None) [enzyme] 0 0, cache [enzyme] 0 0) ∧
  ∃ l,
    (p0 ← processed_paths (this None None) !! 0%nat;
     load_list p0 (cache [enzyme] 0 0)) = Some l ∧
    (0 = 0 → x <$> [enzyme] = x <$> l) ∧
    (0 = 0 → (value ∘ adj) <$> [enzyme] = (value ∘ adj) <$> l).
Proof.
  assert (Hrun : construct None None false false (cache [enzyme] 0 0)
    = Some (mkTUDataset (this None None) [enzyme] 0 0, cache [enzyme] 0 0))
    by reflexivity.
  split; [done|].
  destruct (init_keeps_matrices_without_attributes (ext := ext) _ _ _ _ _ _ _ _ _ _ _ Hrun)
    as (l & Hl & _ & _ & Hx & Hv & _).
  exists l. by repeat split.
Defined.

End Runs.

(** * More of the class *)

(** ** Where the directories are *)

Section Layout.
Context {A : Type}.
Implicit Types s : Self A.

Lemma sep_free_startswith (n : string) :
  sep_free n = true → osp.startswith_sep n = false.
Proof.
  destruct n as [|c n]; [done|]. simpl.
  intros [Hc _]%andb_true_iff. by destruct (bool_decide (c = "/"%char)).
Qed.

Lemma sep_free_endswith (n : string) :
  sep_free n = true → osp.endswith_sep n = false.
Proof.
  induction n as [|c n IH]; [done|]. simpl.
  intros [Hc Hn]%andb_true_iff. destruct n as [|c' n]; [|by apply IH].
  by destruct (bool_decide (c = "/"%char)).
Qed.

(** Two separator-free components followed by a separator: the path tells
    the component. *)
Lemma sep_free_component (a b u v : string) :
  sep_free a = true → sep_free b = true →
  a +:+ "/" +:+ u = b +:+ "/" +:+ v → a = b.
Proof.
  revert b. induction a as [|c a IH]; intros [|c' b] Ha Hb E.
  - done.
  - rewrite !app_cons, app_empty_l in E. injection E as <- _.
    by simpl in Hb.
  - rewrite !app_cons, app_empty_l in E. injection E as -> _.
    by simpl in Ha.
  - rewrite !app_cons in E. injection E as -> E.
    simpl in Ha, Hb. apply andb_true_iff in Ha as [_ Ha], Hb as [_ Hb].
    f_equal. by apply IH.
Qed.

(** The directories of an object whose name is a plain component: what the
    root puts before it, the name, a separator, and the directory's own
    name. *)
Lemma dirs_of_component (rt nm : string) t p f c :
  nm ≠ "" → sep_free nm = true →
  let s := @mkSelf A rt nm t p f c in
  raw_dir s = joined_before rt +:+ nm +:+ "/" +:+ "raw" +:+ cleaned_suffix s ∧
  processed_dir s
    = joined_before rt +:+ nm +:+ "/" +:+ "processed" +:+ cleaned_suffix s.
Proof.
  intros Hne Hfree s. subst s.
  unfold raw_dir, processed_dir, osp.join. cbn [root name cleaned foldl].
  assert (H1 : osp.join_step rt nm = joined_before rt +:+ nm).
  { unfold osp.join_step, joined_before. rewrite (sep_free_startswith nm Hfree).
    destruct (bool_decide (rt = "") || osp.endswith_sep rt); [done|].
    by rewrite app_assoc_s. }
  rewrite H1.
  assert (H2 : ∀ b, osp.startswith_sep b = false →
            osp.join_step (joined_before rt +:+ nm) b
            = joined_before rt +:+ nm +:+ "/" +:+ b).
  { intros b Hb. unfold osp.join_step. rewrite Hb.
    rewrite endswith_sep_app, (sep_free_endswith nm Hfree) by done.
    rewrite bool_decide_eq_false_2; [by rewrite !app_assoc_s|].
    destruct (joined_before rt); [by rewrite app_empty_l|by rewrite app_cons]. }
  split; rewrite H2; by destruct c.
Qed.

(** X1. With a root that is not empty and does not end with the separator
    and a name that is a plain component, the raw directory is
    [<root>/<name>/raw] or [<root>/<name>/raw_cleaned] and the processed
    directory [<root>/<name>/processed] or [<root>/<name>/processed_cleaned],
    by the flag. *)
Theorem dirs_layout s :
  root s ≠ "" → osp.endswith_sep (root s) = false →
  name s ≠ "" → sep_free (name s) = true →
  raw_dir s = root s +:+ "/" +:+ name s +:+ "/" +:+ "raw" +:+ cleaned_suffix s ∧
  processed_dir s
    = root s +:+ "/" +:+ name s +:+ "/" +:+ "processed" +:+ cleaned_suffix s.
Proof.
  destruct s as [rt nm t p f c]. cbn [root name]. intros Hrt Hend Hnm Hfree.
  destruct (dirs_of_component rt nm t p f c Hnm Hfree) as [Hr Hp].
  rewrite Hr, Hp. unfold joined_before.
  rewrite Hend, bool_decide_eq_false_2 by done. simpl.
  by rewrite !app_assoc_s.
Qed.

(** X2. A name that starts with the separator takes the place of the
    root: the directories, and the folder [download] works in, are those of
    the name alone. *)
Theorem absolute_name_replaces_root s :
  osp.startswith_sep (name s) = true →
  osp.join (root s) [name s] = name s ∧
  raw_dir s = osp.join (name s) ["raw" +:+ cleaned_suffix s] ∧
  processed_dir s = osp.join (name s) ["processed" +:+ cleaned_suffix s].
Proof.
  intros Habs.
  assert (H1 : osp.join_step (root s) (name s) = name s).
  { unfold osp.join_step. by rewrite Habs. }
  unfold raw_dir, processed_dir, osp.join. cbn [foldl]. by rewrite H1.
Qed.

Lemma under_components (J n1 n2 D1 D2 path : string) :
  sep_free n1 = true → sep_free n2 = true → n1 ≠ n2 →
  fs.under (J +:+ n1 +:+ "/" +:+ D1) path
    && fs.under (J +:+ n2 +:+ "/" +:+ D2) path = false.
Proof.
  intros H1 H2 Hne. apply not_true_iff_false. intros [Hu1 Hu2]%andb_true_iff.
  apply under_spec in Hu1 as (r1 & -> & _).
  apply under_spec in Hu2 as (r2 & E & _).
  rewrite !app_assoc_s in E. apply (inj _) in E.
  by apply sep_free_component in E.
Qed.

Lemma directory_name_spec (n : string) :
  directory_name n = true → n ≠ "" ∧ sep_free n = true ∧ n ≠ "." ∧ n ≠ "..".
Proof.
  unfold directory_name.
  intros [[[H1 H2]%andb_true_iff H3]%andb_true_iff H4]%andb_true_iff.
  apply negb_true_iff, bool_decide_eq_false in H1, H3, H4. done.
Qed.

(** X3. Two datasets under one root whose names are different directory
    names (not empty, without separator, neither [.] nor [..], which would
    name the dataset folder's own place or the one above it) share no
    path: their directories are [<before><name>/<dir>] with one [<before>],
    so nothing lies at or beneath a raw or processed directory of the one
    and a raw or processed directory of the other, whatever their cleaned
    flags. *)
Theorem different_names_share_no_path
    (rt n1 n2 : string) (t1 p1 t2 p2 : option (Data A → Data A))
    (f1 f2 : option (Data A → bool)) (c1 c2 : bool) (path : string) :
  directory_name n1 = true → directory_name n2 = true → n1 ≠ n2 →
  let s1 := mkSelf rt n1 t1 p1 f1 c1 in
  let s2 := mkSelf rt n2 t2 p2 f2 c2 in
  (∃ before,
     raw_dir s1 = before +:+ n1 +:+ "/" +:+ "raw" +:+ cleaned_suffix s1 ∧
     processed_dir s1 = before +:+ n1 +:+ "/" +:+ "processed" +:+ cleaned_suffix s1 ∧
     raw_dir s2 = before +:+ n2 +:+ "/" +:+ "raw" +:+ cleaned_suffix s2 ∧
     processed_dir s2 = before +:+ n2 +:+ "/" +:+ "processed" +:+ cleaned_suffix s2) ∧
  fs.under (raw_dir s1) path && fs.under (raw_dir s2) path = false ∧
  fs.under (raw_dir s1) path && fs.under (processed_dir s2) path = false ∧
  fs.under (processed_dir s1) path && fs.under (raw_dir s2) path = false ∧
  fs.under (processed_dir s1) path && fs.under (processed_dir s2) path = false.
Proof.
  intros (He1 & Hf1 & _)%directory_name_spec (He2 & Hf2 & _)%directory_name_spec
    Hne s1 s2.
  destruct (dirs_of_component rt n1 t1 p1 f1 c1 He1 Hf1) as [Hr1 Hp1].
  destruct (dirs_of_component rt n2 t2 p2 f2 c2 He2 Hf2) as [Hr2 Hp2].
  fold s1 in Hr1, Hp1. fold s2 in Hr2, Hp2. rewrite Hr1, Hp1, Hr2, Hp2.
  split; [by exists (joined_before rt)|].
  repeat split; by apply under_components.
Qed.

(** X4. The raw and the processed directory of one object share no path:
    nothing written beneath the one lies beneath the other. *)
Theorem raw_and_processed_share_no_path s (path : string) :
  fs.under (raw_dir s) path && fs.under (processed_dir s) path = false.
Proof.
  destruct s as [rt nm t p f c].
  destruct (dirs_shape (A := A) rt nm) as [Q HQ].
  destruct (HQ t p f c) as [Hr Hp]. rewrite Hr, Hp.
  apply under_disjoint. intros r1 r2 _ _. rewrite !app_assoc_s.
  apply clash_raw_processed.
Qed.

End Layout.

(** ** What the constructor loads *)

Section Loaded.
Context {A : Type} {ext : Imports A}.
Implicit Types (s : Self A) (w : world A) (ds : TUDataset A).

(** The constructor past the base class, given what the three processed
    files hold. *)
Lemma load_unfold s un ue w (l : list (Data A)) (nna nea : Z) :
  (p0 ← processed_paths s !! 0%nat; load_list p0 w) = Some l →
  (p1 ← processed_paths s !! 1%nat; load_int p1 w) = Some nna →
  (p2 ← processed_paths s !! 2%nat; load_int p2 w) = Some nea →
  load s un ue w =
    (l1 ← node_pass nna un l; l2 ← edge_pass nea ue l1;
     Some (mkTUDataset s l2 nna nea)).
Proof.
  destruct (processed_paths_distinct s) as (p0 & p1 & p2 & Hp & _).
  unfold load. rewrite Hp. simpl. by intros -> -> ->.
Qed.

(** X5. What [process] saves the constructor loads: after a [process] that
    returns, the constructor's own part, under flags with which neither
    pass slices (a count that is not positive, or its flag True), returns
    the reader's two counts and the very list [process] built from the
    reader's answer; so with both flags True. *)
Theorem process_then_load s w (nna nea : Z) (w' : world A) :
  process s w = Some (nna, nea, w') →
  ∃ parsed,
    read_tu_data (raw_dir s) (name s) (files w) = Some (parsed, nna, nea) ∧
    (∀ un ue,
       slices nna un = false → slices nea ue = false →
       load s un ue w'
         = Some (mkTUDataset s
                   (filter_then_transform (pre_filter s) (pre_transform s) parsed)
                   nna nea)) ∧
    load s true true w'
      = Some (mkTUDataset s
                (filter_then_transform (pre_filter s) (pre_transform s) parsed)
                nna nea).
Proof.
  destruct (processed_paths_distinct s) as (p0 & p1 & p2 & Hp & H01 & H02 & H12 & _).
  rewrite (process_unfold s w p0 p1 p2 Hp).
  destruct (read_tu_data _ _ _) as [[[parsed a] e]|]; [|done].
  simpl. intros [= -> -> <-]. exists parsed. split; [done|].
  assert (Hload : ∀ un ue, load s un ue
      (mkWorld (<[p2:=SavedInt nea]> (<[p1:=SavedInt nna]>
         (<[p0:=SavedList (filter_then_transform (pre_filter s) (pre_transform s) parsed)]>
            (files w)))) (requests w)) =
      (l1 ← node_pass nna un
              (filter_then_transform (pre_filter s) (pre_transform s) parsed);
       l2 ← edge_pass nea ue l1;
       Some (mkTUDataset s l2 nna nea))).
  { intros un ue. apply load_unfold; rewrite Hp; simpl;
      unfold load_list, load_int, torch_load; simpl.
    - by rewrite 2!lookup_insert_ne, lookup_insert_eq.
    - by rewrite lookup_insert_ne, lookup_insert_eq.
    - by rewrite lookup_insert_eq. }
  split.
  - intros un ue Hn He. rewrite Hload. unfold node_pass, edge_pass.
    unfold slices in Hn, He. by rewrite Hn, He.
  - rewrite Hload. unfold node_pass, edge_pass. by rewrite !andb_false_r.
Qed.

(** X6. When the constructor's own part raises.  It raises when one of the
    three processed files is not there.  With the three files holding a
    list and two integers, it returns exactly when every record has a node
    feature matrix, should the node pass slice, and every record has edge
    values, should the edge pass slice. *)
Theorem load_raises_exactly s un ue w :
  (∀ path, path ∈ processed_paths s → files w !! path = None →
     load s un ue w = None) ∧
  (∀ (l : list (Data A)) (nna nea : Z),
     (p0 ← processed_paths s !! 0%nat; load_list p0 w) = Some l →
     (p1 ← processed_paths s !! 1%nat; load_int p1 w) = Some nna →
     (p2 ← processed_paths s !! 2%nat; load_int p2 w) = Some nea →
     (is_Some (load s un ue w) ↔
        (slices nna un = true → Forall (λ data, is_Some (x data)) l) ∧
        (slices nea ue = true → Forall (λ data, is_Some (value (adj data))) l))).
Proof.
  split.
  - destruct (processed_paths_distinct s) as (p0 & p1 & p2 & Hp & _).
    intros path Hin Hnone. rewrite Hp in Hin. unfold load. rewrite Hp. simpl.
    unfold load_list, load_int, torch_load.
    apply elem_of_cons in Hin as [->|Hin]; [by rewrite Hnone|].
    destruct (files w !! p0) as [[]|]; try done. simpl.
    apply elem_of_cons in Hin as [->|Hin]; [by rewrite Hnone|].
    destruct (files w !! p1) as [[]|]; try done. simpl.
    apply list_elem_of_singleton in Hin as ->. by rewrite Hnone.
  - intros l nna nea H0 H1 H2. rewrite (load_unfold s un ue w l nna nea H0 H1 H2).
    assert (Hnode : is_Some (node_pass nna un l) ↔
              (slices nna un = true → Forall (λ data, is_Some (x data)) l)).
    { unfold node_pass, slices. destruct ((nna >? 0) && negb un).
      - rewrite mapM_is_Some. split.
        + intros HF _. eapply Forall_impl; [exact HF|]. intros d [d' Hd].
          unfold strip_x in Hd. destruct (x d); [by eexists|done].
        + intros HF. eapply Forall_impl; [exact (HF eq_refl)|]. intros d [t Ht].
          simpl. unfold strip_x. rewrite Ht. by eexists.
      - split; [done|]. by eexists. }
    assert (Hedge : ∀ l1, (value ∘ adj) <$> l1 = (value ∘ adj) <$> l →
              (is_Some (edge_pass nea ue l1) ↔
               (slices nea ue = true → Forall (λ data, is_Some (value (adj data))) l))).
    { intros l1 Hsame.
      assert (Hall : Forall (λ data, is_Some (value (adj data))) l1 ↔
                     Forall (λ data, is_Some (value (adj data))) l).
      { change (Forall (is_Some ∘ (value ∘ adj)) l1 ↔ Forall (is_Some ∘ (value ∘ adj)) l).
        by rewrite <-!Forall_fmap, Hsame. }
      unfold edge_pass, slices. destruct ((nea >? 0) && negb ue).
      - rewrite mapM_is_Some, <-Hall. split.
        + intros HF _. eapply Forall_impl; [exact HF|]. intros d [d' Hd].
          unfold strip_value in Hd. destruct (value (adj d)); [by eexists|done].
        + intros HF. eapply Forall_impl; [exact (HF eq_refl)|]. intros d [t Ht].
          simpl. unfold strip_value. rewrite Ht. by eexists.
      - split; [done|]. by eexists. }
    destruct (node_pass nna un l) as [l1|] eqn:E1; simpl.
    + assert (Hsame : (value ∘ adj) <$> l1 = (value ∘ adj) <$> l).
      { apply node_pass_spec in E1. clear -E1.
        induction E1 as [|d d' l l1 (_ & Ha & _) _ IH]; [done|].
        rewrite !fmap_cons, IH. simpl. by rewrite Ha. }
      specialize (Hedge l1 Hsame).
      destruct (edge_pass nea ue l1) as [l2|] eqn:E2; simpl.
      * split; [|by eexists]. intros _. split; [by apply Hnode|by apply Hedge].
      * split; [by intros [? ?]|]. intros [_ He]. by apply Hedge in He as [? ?].
    + split; [by intros [? ?]|]. intros [Hn _]. by apply Hnode in Hn as [? ?].
Qed.

Lemma slices_positive (count : Z) (use_attributes : bool) :
  slices count use_attributes = true → count > 0.
Proof. unfold slices. intros [H _]%andb_true_iff. by apply Z.gtb_lt, Z.lt_gt in H. Qed.

Lemma sliced_columns (a : Z) (t : option (Tensor A)) :
  a > 0 → num_columns (slice_columns a <$> t) = Z.max 0 (num_columns t - a).
Proof.
  intros Ha. destruct t as [t|]; [|simpl; lia].
  change (Z.of_nat (size1 (slice_columns a t)) = Z.max 0 (Z.of_nat (size1 t) - a)).
  rewrite slice_columns_size by lia. lia.
Qed.

Lemma sliced_rows (a : Z) (t : option (Tensor A)) :
  num_rows (slice_columns a <$> t) = num_rows t.
Proof. destruct t as [t|]; [|done]. simpl. by rewrite length_fmap. Qed.

(** X7. What the constructor never touches.  The loaded list has a record
    for each persisted record, in order; each has the coordinates and the
    target of the persisted one; its node matrix is the persisted one when
    the node pass does not slice, and its edge values are the persisted
    ones when the edge pass does not slice; a matrix that was there is
    there, with as many rows, whether sliced or not. *)
Theorem load_record_by_record s un ue w ds :
  load s un ue w = Some ds →
  ∃ l,
    (p0 ← processed_paths s !! 0%nat; load_list p0 w) = Some l ∧
    length (data_list ds) = length l ∧
    Forall2 (λ data data',
       index (adj data') = index (adj data) ∧
       y data' = y data ∧
       (slices (num_node_attributes ds) un = false → x data' = x data) ∧
       (slices (num_edge_attributes ds) ue = false →
          value (adj data') = value (adj data)) ∧
       num_rows (x data') = num_rows (x data) ∧
       num_rows (value (adj data')) = num_rows (value (adj data)))
      l (data_list ds).
Proof.
  intros (l & l1 & Hl & _ & _ & H1 & H2 & _)%load_inv.
  exists l. split; [done|].
  pose proof (passes_compose _ _ _ _ _ _ _ H1 H2) as HF.
  split; [symmetry; by eapply Forall2_length|].
  eapply Forall2_impl; [exact HF|].
  intros d d' (Hx & Hi & Hv & Hy). do 2 (split; [done|]).
  rewrite Hx, Hv. repeat split.
  - by intros ->.
  - by intros ->.
  - destruct (slices (num_node_attributes ds) un); [apply sliced_rows|done].
  - destruct (slices (num_edge_attributes ds) ue); [apply sliced_rows|done].
Qed.

(** X8. The widths the constructor hands out.  A pass that slices takes at
    least [count] columns off a matrix, all of them when it has no more:
    the matrix is left with no more than its columns less [count] and no
    fewer than none, so an attribute count that reaches the width leaves a
    matrix without columns instead of raising.  (The bound is from above:
    a record that the list holds twice is one object in Python and loses
    [count] columns at each occurrence.)  Records whose rows all have the
    declared width stay so. *)
Theorem load_shapes s un ue w ds :
  load s un ue w = Some ds →
  ∃ l,
    (p0 ← processed_paths s !! 0%nat; load_list p0 w) = Some l ∧
    Forall2 (λ data data',
       (slices (num_node_attributes ds) un = true →
          0 ≤ node_columns data' ∧
          node_columns data' ≤ Z.max 0 (node_columns data - num_node_attributes ds) ∧
          (node_columns data ≤ num_node_attributes ds → node_columns data' = 0)) ∧
       (slices (num_edge_attributes ds) ue = true →
          0 ≤ edge_columns data' ∧
          edge_columns data' ≤ Z.max 0 (edge_columns data - num_edge_attributes ds) ∧
          (edge_columns data ≤ num_edge_attributes ds → edge_columns data' = 0)) ∧
       (data_wf data → data_wf data'))
      l (data_list ds).
Proof.
  intros (l & l1 & Hl & _ & _ & H1 & H2 & _)%load_inv.
  exists l. split; [done|].
  pose proof (passes_compose _ _ _ _ _ _ _ H1 H2) as HF.
  eapply Forall2_impl; [exact HF|].
  intros d d' (Hx & _ & Hv & _). unfold node_columns, edge_columns.
  rewrite Hx, Hv. split; [|split].
  - intros E. rewrite E. rewrite sliced_columns by by eapply slices_positive. lia.
  - intros E. rewrite E. rewrite sliced_columns by by eapply slices_positive. lia.
  - intros [Hwx Hwv]. split.
    + intros t Ht. rewrite Hx in Ht.
      destruct (slices (num_node_attributes ds) un); [|by apply Hwx].
      destruct (x d) as [t0|]; [|done]. simpl in Ht. simplify_eq.
      by apply slice_columns_wf, Hwx.
    + intros v Hval. rewrite Hv in Hval.
      destruct (slices (num_edge_attributes ds) ue); [|by apply Hwv].
      destruct (value (adj d)) as [v0|]; [|done]. simpl in Hval. simplify_eq.
      by apply slice_columns_wf, Hwv.
Qed.

(** X9. The constructor's own part looks at root, name and the cleaned
    flag only: given the same disk, objects that differ in transform,
    pre_transform or pre_filter load the same list and the same counts. *)
Theorem load_ignores_callbacks s s' un ue w :
  root s = root s' → name s = name s' → cleaned s = cleaned s' →
  (λ ds, (data_list ds, num_node_attributes ds, num_edge_attributes ds))
    <$> load s un ue w
  = (λ ds, (data_list ds, num_node_attributes ds, num_edge_attributes ds))
    <$> load s' un ue w.
Proof.
  destruct s as [rt nm t p f c], s' as [rt' nm' t' p' f' c']. simpl.
  intros <- <- <-.
  destruct (processed_paths_distinct (mkSelf rt nm t p f c))
    as (p0 & p1 & p2 & Hp & _).
  unfold load.
  change (processed_paths (mkSelf rt nm t' p' f' c))
    with (processed_paths (mkSelf rt nm t p f c)).
  rewrite Hp. simpl.
  destruct (load_list p0 w) as [l|]; [|done]. simpl.
  destruct (load_int p1 w) as [nna|]; [|done]. simpl.
  destruct (load_int p2 w) as [nea|]; [|done]. simpl.
  destruct (node_pass nna un l) as [l1|]; [|done]. simpl.
  by destruct (edge_pass nea ue l1) as [l2|].
Qed.

End Loaded.

(** ** process, run again *)

Section ProcessAgain.
Context {A : Type} {ext : Imports A}.
Implicit Types (s : Self A) (w : world A).

Lemma subtree_ext (d : string) (m1 m2 : gmap string (file A)) :
  (∀ p, fs.under d p = true → m1 !! p = m2 !! p) →
  fs.subtree d m1 = fs.subtree d m2.
Proof.
  intros Hsame. apply map_eq. intros p. rewrite !subtree_lookup.
  destruct (fs.under d p) eqn:Hu; [by apply Hsame|done].
Qed.

Lemma insert_three_again (m : gmap string (file A)) (p0 p1 p2 : string)
    (a b c : file A) :
  <[p2:=c]> (<[p1:=b]> (<[p0:=a]> (<[p2:=c]> (<[p1:=b]> (<[p0:=a]> m)))))
  = <[p2:=c]> (<[p1:=b]> (<[p0:=a]> m)).
Proof.
  apply map_eq. intros i. rewrite !lookup_insert.
  repeat case_decide; done.
Qed.

(** X10. [process] run a second time changes nothing: with a reader whose
    answer depends on the files of the raw directory only, a [process]
    that follows a [process] returns the same counts and leaves the disk
    as it found it. *)
Theorem process_again s w (nna nea : Z) (w1 : world A) :
  (∀ m1 m2, fs.subtree (raw_dir s) m1 = fs.subtree (raw_dir s) m2 →
     read_tu_data (raw_dir s) (name s) m1 = read_tu_data (raw_dir s) (name s) m2) →
  process s w = Some (nna, nea, w1) →
  process s w1 = Some (nna, nea, w1).
Proof.
  intros Hlocal Hrun.
  destruct (processed_paths_distinct s)
    as (p0 & p1 & p2 & Hp & _ & _ & _ & H0 & H1 & H2).
  pose proof Hrun as Hrun'. rewrite (process_unfold s w p0 p1 p2 Hp) in Hrun'.
  destruct (read_tu_data (raw_dir s) (name s) (files w))
    as [[[parsed a] e]|] eqn:Hread; [|done].
  simpl in Hrun'. injection Hrun' as -> -> Hw1.
  assert (Hsame : fs.subtree (raw_dir s) (files w1) = fs.subtree (raw_dir s) (files w)).
  { apply subtree_ext. intros p Hu. rewrite <-Hw1. simpl.
    rewrite !lookup_insert_ne; [done|..]; intros ->; congruence. }
  rewrite (process_unfold s w1 p0 p1 p2 Hp), (Hlocal _ _ Hsame), Hread. simpl.
  do 2 f_equal. rewrite <-Hw1. simpl. f_equal. apply insert_three_again.
Qed.

End ProcessAgain.

(** ** download, further *)

Section DownloadMore.
Context {A : Type} {ext : Imports A}.
Implicit Types (s : Self A) (w : world A).

Lemma rename_nonempty (src dst : string) (m m' : gmap string (file A)) :
  fs.rename src dst m = Some m' →
  ∃ p f, fs.under src p = true ∧ m !! p = Some f.
Proof.
  unfold fs.rename. case_bool_decide as Hsrc; [done|]. intros _.
  apply map_choose in Hsrc as (p & f & Hp). exists p, f.
  rewrite subtree_lookup in Hp. by destruct (fs.under src p).
Qed.

(** A [download] that returns, step by step: the two imported calls, the
    archive deleted, the raw directory emptied, the extracted directory
    moved onto it. *)
Lemma download_inv s w (w' : world A) :
  download s w = Some w' →
  ∃ path w1 w2,
    download_url ((if cleaned s then cleaned_url else url) +:+ "/" +:+ name s +:+ ".zip")
      (osp.join (root s) [name s]) w = Some (path, w1) ∧
    extract_zip path (osp.join (root s) [name s]) w1 = Some w2 ∧
    (∃ rest f, fs.is_rest rest ∧
       delete path (files w2)
         !! (osp.join (osp.join (root s) [name s]) [name s] +:+ rest) = Some f ∧
       fs.under (raw_dir s)
         (osp.join (osp.join (root s) [name s]) [name s] +:+ rest) = false) ∧
    (∀ rest, fs.is_rest rest →
       files w' !! (raw_dir s +:+ rest)
       = delete path (files w2)
           !! (osp.join (osp.join (root s) [name s]) [name s] +:+ rest)) ∧
    (∀ p, fs.under (osp.join (osp.join (root s) [name s]) [name s]) p = true →
       files w' !! p = None) ∧
    (∀ p, fs.under (osp.join (osp.join (root s) [name s]) [name s]) p = false →
       fs.under (raw_dir s) p = false →
       files w' !! p = delete path (files w2) !! p) ∧
    requests w' = requests w2.
Proof.
  unfold download.
  set (folder := osp.join (root s) [name s]).
  set (src := osp.join folder [name s]).
  destruct (download_url _ folder w) as [[path w1]|] eqn:Hd; [|done].
  cbn [mbind option_bind]. destruct (extract_zip path folder w1) as [w2|] eqn:Hx; [|done].
  cbn [mbind option_bind]. destruct (on_files (fs.unlink path) w2) as [w3|] eqn:H3; [|done].
  cbn [mbind option_bind]. destruct (on_files (fs.rmtree (raw_dir s)) w3) as [w4|] eqn:H4; [|done].
  cbn [mbind option_bind]. intros H5.
  apply on_files_inv in H3 as [H3 R3], H4 as [H4 R4], H5 as [H5 R5].
  exists path, w1, w2. do 2 (split; [done|]).
  unfold fs.unlink in H3. destruct (files w2 !! path) as [zip|]; [|done].
  injection H3 as H3.
  destruct (rename_spec _ _ _ _ H5) as (Hsd & Hds & Hmoved & Hgone & Hrest).
  assert (Hm4 : ∀ p, files w4 !! p
                 = if fs.under (raw_dir s) p then None else delete path (files w2) !! p).
  { intros p. rewrite (rmtree_lookup _ p _ _ H4). by rewrite H3. }
  split; [|split; [|split; [|split]]].
  - destruct (rename_nonempty _ _ _ _ H5) as (p & f & Hu & Hp).
    apply under_spec in Hu as (rest & -> & Hr). exists rest, f.
    rewrite Hm4 in Hp. by destruct (fs.under (raw_dir s) (src +:+ rest)).
  - intros rest Hr. rewrite Hmoved, Hm4 by done.
    destruct (fs.under (raw_dir s) (src +:+ rest)) eqn:Hu; [|done].
    exfalso. apply (under_apart src (raw_dir s) (src +:+ rest)); try done.
    apply under_spec. by exists rest.
  - done.
  - intros p Hs Hd'. by rewrite Hrest, Hm4, Hd'.
  - congruence.
Qed.

(** X11. [download] never returns when [<root>/<name>/<name>], where the
    archive is expected to unpack, is the raw directory or lies in it: the
    [rmtree] of line 113 removes what was extracted there, and the
    [os.rename] of line 114 has no source.  So for a dataset named as its
    own raw directory is ("raw", or "raw_cleaned" with the cleaned flag),
    whatever the host serves and the archive holds. *)
Theorem download_fails_inside_raw_dir s w :
  (fs.under (raw_dir s) (osp.join (osp.join (root s) [name s]) [name s]) = true →
   download s w = None) ∧
  (name s = "raw" +:+ cleaned_suffix s →
   osp.join (osp.join (root s) [name s]) [name s] = raw_dir s ∧
   download s w = None).
Proof.
  assert (Hin : fs.under (raw_dir s) (osp.join (osp.join (root s) [name s]) [name s])
                = true → download s w = None).
  { intros Hunder. destruct (download s w) as [w'|] eqn:Hrun; [|done].
    apply download_inv in Hrun
      as (path & w1 & w2 & _ & _ & (rest & f & Hr & _ & Hu) & _).
    assert (fs.under (raw_dir s)
              (osp.join (osp.join (root s) [name s]) [name s] +:+ rest) = true);
      [|congruence].
    apply (under_trans _ (osp.join (osp.join (root s) [name s]) [name s])); [done|].
    apply under_spec. by exists rest. }
  split; [done|]. intros Hname.
  assert (Hsame : osp.join (osp.join (root s) [name s]) [name s] = raw_dir s).
  { unfold raw_dir. by rewrite <-Hname. }
  split; [done|]. apply Hin. rewrite Hsame. apply under_refl.
Qed.

(** X12. What [download] leaves beside the raw directory: nothing at
    [<root>/<name>/<name>], the extracted directory having been moved; every
    path outside that directory and outside the raw directory, other than
    the archive, as extraction left it; and no request beyond those of
    [download_url] and [extract_zip]. *)
Theorem download_leaves_the_rest s w (w' : world A) :
  download s w = Some w' →
  ∃ path w1 w2,
    download_url ((if cleaned s then cleaned_url else url) +:+ "/" +:+ name s +:+ ".zip")
      (osp.join (root s) [name s]) w = Some (path, w1) ∧
    extract_zip path (osp.join (root s) [name s]) w1 = Some w2 ∧
    (∀ p, fs.under (osp.join (osp.join (root s) [name s]) [name s]) p = true →
       files w' !! p = None) ∧
    (∀ p, fs.under (osp.join (osp.join (root s) [name s]) [name s]) p = false →
       fs.under (raw_dir s) p = false → p ≠ path →
       files w' !! p = files w2 !! p) ∧
    requests w' = requests w2.
Proof.
  intros (path & w1 & w2 & Hd & Hx & _ & _ & Hgone & Hrest & Hreq)%download_inv.
  exists path, w1, w2. do 3 (split; [done|]). split; [|done].
  intros p Hs Hr Hne. rewrite Hrest by done. by apply lookup_delete_ne.
Qed.

(** The raw directory is not empty and does not end with the separator. *)
Lemma raw_dir_ordinary s :
  raw_dir s ≠ "" ∧ osp.endswith_sep (raw_dir s) = false.
Proof.
  destruct s as [rt nm t p f c].
  destruct (dirs_shape (A := A) rt nm) as [Q HQ].
  destruct (HQ t p f c) as [Hr _]. rewrite Hr. split.
  - destruct Q; rewrite ?app_cons, ?app_empty_l; by destruct c.
  - rewrite endswith_sep_app; by destruct c.
Qed.

(** X13. [download] and the required raw files.  For a name that does not
    start with the separator, after a [download] whose extraction has put
    [<name>_A.txt] and [<name>_graph_indicator.txt] in
    [<root>/<name>/<name>], every name of [raw_file_names] joined to the raw
    directory is a file on disk. *)
Theorem download_provides_raw_files s w (w' : world A) (path : string)
    (w1 w2 : world A) :
  osp.startswith_sep (name s) = false →
  download s w = Some w' →
  download_url ((if cleaned s then cleaned_url else url) +:+ "/" +:+ name s +:+ ".zip")
    (osp.join (root s) [name s]) w = Some (path, w1) →
  extract_zip path (osp.join (root s) [name s]) w1 = Some w2 →
  (∀ f, f ∈ raw_file_names s →
     is_Some (delete path (files w2)
                !! (osp.join (osp.join (root s) [name s]) [name s] +:+ "/" +:+ f))) →
  fs.files_exist ((λ f, osp.join (raw_dir s) [f]) <$> raw_file_names s) (files w')
    = true.
Proof.
  intros Hrel (path' & w1' & w2' & Hd & Hx & _ & Hmoved & _)%download_inv Hd' Hx' Hall.
  rewrite Hd in Hd'. injection Hd' as -> ->. rewrite Hx in Hx'. injection Hx' as ->.
  destruct (raw_dir_ordinary s) as [Hne Hend].
  assert (Hfile : ∀ f, f ∈ raw_file_names s →
            is_Some (files w' !! osp.join (raw_dir s) [f])).
  { intros f Hf.
    assert (Hstart : osp.startswith_sep f = false).
    { unfold raw_file_names in Hf. cbn [fmap list_fmap] in Hf.
      apply elem_of_cons in Hf as [->|Hf];
        [|apply list_elem_of_singleton in Hf as ->];
        destruct (name s); by rewrite ?app_cons, ?app_empty_l in *. }
    rewrite join_file by done. rewrite Hmoved by by right. by apply Hall. }
  unfold fs.files_exist, raw_file_names in *. cbn [fmap list_fmap forallb] in *.
  rewrite !bool_decide_eq_true_2; [done|..]; apply Hfile; set_solver.
Qed.

End DownloadMore.

(** ** The further properties on the small dataset *)

Section MoreRuns.
Import Examples MoreExamples.

Lemma dirs_layout_witness :
  root (this None None) ≠ "" ∧ osp.endswith_sep (root (this None None)) = false ∧
  name (this None None) ≠ "" ∧ sep_free (name (this None None)) = true ∧
  raw_dir (this None None) = "/data/ENZYMES/raw" ∧
  processed_dir (this None None) = "/data/ENZYMES/processed".
Proof.
  split; [done|]. split; [reflexivity|]. split; [done|]. split; [reflexivity|].
  exact (dirs_layout (this None None) ltac:(done) eq_refl ltac:(done) eq_refl).
Defined.

Lemma absolute_name_replaces_root_witness :
  osp.startswith_sep (name absolute) = true ∧
  osp.join (root absolute) [name absolute] = "/tmp/ENZYMES" ∧
  raw_dir absolute = "/tmp/ENZYMES/raw" ∧
  processed_dir absolute = "/tmp/ENZYMES/processed".
Proof.
  split; [reflexivity|].
  exact (absolute_name_replaces_root absolute eq_refl).
Defined.

Lemma different_names_share_no_path_witness :
  directory_name "ENZYMES" = true ∧ directory_name "PROTEINS" = true ∧
  "ENZYMES" ≠ "PROTEINS" ∧
  fs.under (raw_dir (this None None)) "/data/PROTEINS/raw_cleaned/PROTEINS_A.txt"
    && fs.under (raw_dir proteins) "/data/PROTEINS/raw_cleaned/PROTEINS_A.txt"
    = false.
Proof.
  do 2 (split; [reflexivity|]). split; [done|].
  exact (proj1 (proj2 (different_names_share_no_path (A := Z)
                  "/data" "ENZYMES" "PROTEINS"
                  None None None None None None false true
                  "/data/PROTEINS/raw_cleaned/PROTEINS_A.txt"
                  eq_refl eq_refl ltac:(done)))).
Defined.

Lemma process_then_load_witness :
  process (ext := ext) (this None None) raw_disk
    = Some (2, 0, built_disk [enzyme] 2 0) ∧
  load (this None None) true true (built_disk [enzyme] 2 0)
    = Some (mkTUDataset (this None None) [enzyme] 2 0) ∧
  slices 2 true = false ∧ slices 0 false = false ∧
  load (this None None) true false (built_disk [enzyme] 2 0)
    = Some (mkTUDataset (this None None) [enzyme] 2 0).
Proof.
  assert (Hrun : process (ext := ext) (this None None) raw_disk
                 = Some (2, 0, built_disk [enzyme] 2 0)) by reflexivity.
  split; [done|].
  destruct (process_then_load (ext := ext) _ _ _ _ _ Hrun)
    as (parsed & Hread & Hany & Hboth).
  assert (Hp : read_tu_data (Imports := ext) (raw_dir (this None None))
                 (name (this None None)) (files raw_disk) = Some ([enzyme], 2, 0))
    by reflexivity.
  rewrite Hp in Hread. injection Hread as <-.
  split; [exact Hboth|]. do 2 (split; [reflexivity|]).
  exact (Hany true false eq_refl eq_refl).
Defined.

Lemma load_raises_exactly_witness :
  files empty_disk !! "/data/ENZYMES/processed/data.pt" = None ∧
  load (this None None) false false empty_disk = None ∧
  (p0 ← processed_paths (this None None) !! 0%nat;
   load_list p0 (cache [enzyme; bare] 2 0)) = Some [enzyme; bare] ∧
  (p1 ← processed_paths (this None None) !! 1%nat;
   load_int p1 (cache [enzyme; bare] 2 0)) = Some 2 ∧
  (p2 ← processed_paths (this None None) !! 2%nat;
   load_int p2 (cache [enzyme; bare] 2 0)) = Some 0 ∧
  ¬ is_Some (load (this None None) false true (cache [enzyme; bare] 2 0)) ∧
  is_Some (load (this None None) true false (cache [enzyme; bare] 2 0)).
Proof.
  split; [reflexivity|].
  split.
  { apply (proj1 (load_raises_exactly (this None None) false false
                    empty_disk) "/data/ENZYMES/processed/data.pt");
      [by left|reflexivity]. }
  do 3 (split; [reflexivity|]).
  split.
  - intros Hsome.
    apply (proj2 (load_raises_exactly (this None None) false true
                    (cache [enzyme; bare] 2 0)) [enzyme; bare] 2 0
             eq_refl eq_refl eq_refl) in Hsome as [Hx _].
    specialize (Hx eq_refl). apply Forall_cons in Hx as [_ Hx].
    apply Forall_cons in Hx as [[t Ht] _]. discriminate.
  - apply (proj2 (load_raises_exactly (this None None) true false
                    (cache [enzyme; bare] 2 0)) [enzyme; bare] 2 0
             eq_refl eq_refl eq_refl).
    split; intros; discriminate.
Defined.

Lemma load_record_by_record_witness :
  load (this None None) false false (cache [valued] 2 1)
    = Some (mkTUDataset (this None None) [valued_labels] 2 1) ∧
  ∃ l,
    (p0 ← processed_paths (this None None) !! 0%nat;
     load_list p0 (cache [valued] 2 1)) = Some l ∧
    length [valued_labels] = length l ∧
    Forall2 (λ data data',
       index (adj data') = index (adj data) ∧
       y data' = y data ∧
       (slices 2 false = false → x data' = x data) ∧
       (slices 1 false = false → value (adj data') = value (adj data)) ∧
       num_rows (x data') = num_rows (x data) ∧
       num_rows (value (adj data')) = num_rows (value (adj data)))
      l [valued_labels].
Proof.
  assert (Hrun : load (this None None) false false (cache [valued] 2 1)
                 = Some (mkTUDataset (this None None) [valued_labels] 2 1))
    by reflexivity.
  split; [done|].
  exact (load_record_by_record _ _ _ _ _ Hrun).
Defined.

Lemma load_shapes_witness :
  load (this None None) false true (cache [valued] 5 1)
    = Some (mkTUDataset (this None None)
              [mkData (Some (mkTensor 0 [[]; []])) (adj valued) (y valued)] 5 1) ∧
  ∃ l,
    (p0 ← processed_paths (this None None) !! 0%nat;
     load_list p0 (cache [valued] 5 1)) = Some l ∧
    Forall2 (λ data data',
       (slices 5 false = true →
          0 ≤ node_columns data' ∧
          node_columns data' ≤ Z.max 0 (node_columns data - 5) ∧
          (node_columns data ≤ 5 → node_columns data' = 0)) ∧
       (slices 1 true = true →
          0 ≤ edge_columns data' ∧
          edge_columns data' ≤ Z.max 0 (edge_columns data - 1) ∧
          (edge_columns data ≤ 1 → edge_columns data' = 0)) ∧
       (data_wf data → data_wf data'))
      l [mkData (Some (mkTensor 0 [[]; []])) (adj valued) (y valued)].
Proof.
  assert (Hrun : load (this None None) false true (cache [valued] 5 1)
    = Some (mkTUDataset (this None None)
              [mkData (Some (mkTensor 0 [[]; []])) (adj valued) (y valued)] 5 1))
    by reflexivity.
  split; [done|].
  exact (load_shapes _ _ _ _ _ Hrun).
Defined.

Lemma load_ignores_callbacks_witness :
  root (this None None) = root (this (Some keep_last_column) (Some reject)) ∧
  name (this None None) = name (this (Some keep_last_column) (Some reject)) ∧
  cleaned (this None None) = cleaned (this (Some keep_last_column) (Some reject)) ∧
  (λ ds, (data_list ds, num_node_attributes ds, num_edge_attributes ds))
    <$> load (this None None) false false (cache [enzyme] 2 0)
  = (λ ds, (data_list ds, num_node_attributes ds, num_edge_attributes ds))
    <$> load (this (Some keep_last_column) (Some reject)) false false
          (cache [enzyme] 2 0).
Proof.
  do 3 (split; [reflexivity|]).
  exact (load_ignores_callbacks (this None None)
           (this (Some keep_last_column) (Some reject)) false false
           (cache [enzyme] 2 0) eq_refl eq_refl eq_refl).
Defined.

(** The stand-in reader looks at the two files of its folder only. *)
Lemma reader_local (m1 m2 : gmap string (file Z)) :
  fs.subtree (raw_dir (this None None)) m1 = fs.subtree (raw_dir (this None None)) m2 →
  read_tu_data (Imports := ext) (raw_dir (this None None)) (name (this None None)) m1
  = read_tu_data (Imports := ext) (raw_dir (this None None)) (name (this None None)) m2.
Proof.
  intros Hsub.
  change (model.read_tu_data parsed (raw_dir (this None None)) "ENZYMES" m1
          = model.read_tu_data parsed (raw_dir (this None None)) "ENZYMES" m2).
  unfold model.read_tu_data, fs.files_exist. cbn [forallb].
  rewrite (subtree_agree _ _ m1 m2 Hsub) by reflexivity.
  rewrite (subtree_agree _ (osp.join _ ["ENZYMES" +:+ "_graph_indicator.txt"])
             m1 m2 Hsub) by reflexivity.
  done.
Defined.

Lemma process_again_witness :
  (∀ m1 m2 : gmap string (file Z),
     fs.subtree (raw_dir (this None None)) m1
       = fs.subtree (raw_dir (this None None)) m2 →
     read_tu_data (Imports := ext) (raw_dir (this None None))
         (name (this None None)) m1
     = read_tu_data (Imports := ext) (raw_dir (this None None))
         (name (this None None)) m2) ∧
  process (ext := ext) (this None None) raw_disk
    = Some (2, 0, built_disk [enzyme] 2 0) ∧
  process (ext := ext) (this None None) (built_disk [enzyme] 2 0)
    = Some (2, 0, built_disk [enzyme] 2 0).
Proof.
  split; [exact reader_local|]. split; [reflexivity|].
  exact (process_again (ext := ext) (this None None) raw_disk 2 0
           (built_disk [enzyme] 2 0) reader_local eq_refl).
Defined.

(** The dataset named "raw", its archive served: the archive is fetched
    and extracted into the raw directory, deleted, the raw directory
    removed with what was extracted, and nothing is left to rename. *)
Lemma download_fails_inside_raw_dir_witness :
  name named_raw = "raw" +:+ cleaned_suffix named_raw ∧
  download_url (Imports := raw_ext)
    ((if cleaned named_raw then cleaned_url else url)
       +:+ "/" +:+ name named_raw +:+ ".zip")
    (osp.join (root named_raw) [name named_raw]) empty_disk
    = Some (raw_zip_path, raw_downloaded_disk) ∧
  extract_zip (Imports := raw_ext) raw_zip_path
    (osp.join (root named_raw) [name named_raw]) raw_downloaded_disk
    = Some raw_extracted_disk ∧
  (m ← fs.unlink raw_zip_path (files raw_extracted_disk);
   fs.rmtree (raw_dir named_raw) m) = Some ∅ ∧
  osp.join (osp.join (root named_raw) [name named_raw]) [name named_raw]
    = raw_dir named_raw ∧
  download (ext := raw_ext) named_raw empty_disk = None.
Proof.
  split; [reflexivity|]. do 3 (split; [reflexivity|]).
  exact (proj2 (download_fails_inside_raw_dir (ext := raw_ext) named_raw empty_disk)
           eq_refl).
Defined.

Lemma download_leaves_the_rest_witness :
  download (ext := ext) (this None None) stale_disk = Some fetched_disk ∧
  files fetched_disk !! "/data/ENZYMES/ENZYMES/ENZYMES_A.txt" = None ∧
  requests fetched_disk = requests extracted_disk.
Proof.
  assert (Hrun : download (ext := ext) (this None None) stale_disk = Some fetched_disk)
    by reflexivity.
  split; [done|].
  destruct (download_leaves_the_rest (ext := ext) _ _ _ Hrun)
    as (path & w1 & w2 & Hd & Hx & Hgone & _ & Hreq).
  split; [apply Hgone; reflexivity|].
  assert (Hd' : download_url (Imports := ext) (url +:+ "/" +:+ "ENZYMES" +:+ ".zip")
                  "/data/ENZYMES" stale_disk = Some (zip_path, downloaded_disk))
    by reflexivity.
  change (download_url (Imports := ext) (url +:+ "/" +:+ "ENZYMES" +:+ ".zip")
            "/data/ENZYMES" stale_disk = Some (path, w1)) in Hd.
  rewrite Hd' in Hd. injection Hd as <- <-.
  assert (Hx' : extract_zip (Imports := ext) zip_path "/data/ENZYMES" downloaded_disk
                = Some extracted_disk) by reflexivity.
  change (extract_zip (Imports := ext) zip_path "/data/ENZYMES" downloaded_disk
          = Some w2) in Hx.
  rewrite Hx' in Hx. injection Hx as <-. exact Hreq.
Defined.

Lemma download_provides_raw_files_witness :
  osp.startswith_sep (name (this None None)) = false ∧
  download (ext := ext) (this None None) stale_disk = Some fetched_disk ∧
  download_url (Imports := ext)
    ((if cleaned (this None None) then cleaned_url else url)
       +:+ "/" +:+ name (this None None) +:+ ".zip")
    (osp.join (root (this None None)) [name (this None None)]) stale_disk
    = Some (zip_path, downloaded_disk) ∧
  extract_zip (Imports := ext) zip_path
    (osp.join (root (this None None)) [name (this None None)]) downloaded_disk
    = Some extracted_disk ∧
  (∀ f, f ∈ raw_file_names (this None None) →
     is_Some (delete zip_path (files extracted_disk)
                !! (osp.join (osp.join (root (this None None)) [name (this None None)])
                      [name (this None None)] +:+ "/" +:+ f))) ∧
  fs.files_exist
    ((λ f, osp.join (raw_dir (this None None)) [f]) <$> raw_file_names (this None None))
    (files fetched_disk) = true.
Proof.
  assert (Hall : ∀ f, f ∈ raw_file_names (this None None) →
     is_Some (delete zip_path (files extracted_disk)
                !! (osp.join (osp.join (root (this None None)) [name (this None None)])
                      [name (this None None)] +:+ "/" +:+ f))).
  { intros f Hf. unfold raw_file_names in Hf. cbn [fmap list_fmap] in Hf.
    apply elem_of_cons in Hf as [->|Hf];
      [|apply list_elem_of_singleton in Hf as ->]; by eexists. }
  split; [reflexivity|]. split; [reflexivity|]. split; [reflexivity|].
  split; [reflexivity|]. split; [exact Hall|].
  exact (download_provides_raw_files (ext := ext) (this None None) stale_disk
           fetched_disk zip_path downloaded_disk extracted_disk
           eq_refl eq_refl eq_refl eq_refl Hall).
Defined.

End MoreRuns.
